(** * The SSO handler of synapse ([synapse/handlers/sso.py])

    A shallow embedding of [SsoHandler] and of the properties its design
    document states about it.

    The handler owns two dictionaries (the username mapping sessions and the
    registered identity providers) and talks to a number of collaborators
    that live outside [sso.py]: the data store, the registration handler,
    the auth handler, the clock, the random string generator, and the two
    callbacks handed to [complete_sso_login_request].  The collaborators are
    collected in a record [Env] of functions over an abstract world [W];
    every method of the handler is a computation in a state-and-exception
    monad whose state holds the two dictionaries, the world, and the log of
    the calls made to the collaborators.

    What the embedding leaves out: it follows one request at a time, so the
    [Linearizer] lock of [complete_sso_login_request] is taken and released
    without effect and an [await] is an ordinary call; logging is dropped;
    exceptions are the instances of [Exception], the class the handler
    catches. *)

From Stdlib Require Import ZArith Lia Ascii String.
From stdpp Require Import base option list strings gmap fin_maps.

Local Open Scope Z_scope.
Local Open Scope string_scope.

(** ** Exceptions *)

(** [synapse.api.errors.Codes]: the two error codes [sso.py] names. *)
Inductive Codes := UNRECOGNIZED | USER_IN_USE.

(** The instances of [Exception] that travel through the handler.
    [MappingException] carries its message and the [__cause__] set by
    [raise ... from e]; [SynapseError] carries the HTTP status, the message
    and the [errcode] keyword argument ([None] when the call site leaves
    it out); [RedirectException] carries the location and its [cookies]
    list; [OtherException] stands for every instance of [Exception] that is
    none of the above, with whatever detail it holds. *)
#[warnings="-register-all"]
Inductive exn :=
| RedirectException (location : string) (cookies : list string)
| MappingException (msg : string) (cause : option exn)
| SynapseError (code : Z) (msg : string) (errcode : option Codes)
| AssertionError
| OtherException (detail : string).

Inductive result (A : Type) :=
| Ok (a : A)
| Raise (e : exn).
Arguments Ok {A} a.
Arguments Raise {A} e.

(** The message of an exception, as shown to the end user. *)
Definition exn_msg (e : exn) : string :=
  match e with
  | RedirectException _ _ => ""
  | MappingException msg _ => msg
  | SynapseError _ msg _ => msg
  | AssertionError => ""
  | OtherException detail => detail
  end.

(** ** Python truthiness *)

(** [bool(s)] for a [str]. *)
Definition str_truthy (s : string) : bool := negb (String.eqb s "").

(** [bool(o)] for an [Optional[str]]: [None] and [""] are falsy. *)
Definition opt_truthy (o : option string) : bool :=
  match o with
  | Some s => str_truthy s
  | None => false
  end.

(** ** Data *)

(** [UserAttributes] *)
Record UserAttributes := {
  localpart : option string;
  display_name : option string;
  emails : list string;
}.

(** The part of [SynapseRequest] the handler reads. *)
Record SynapseRequest := {
  request_user_agent : option string;
  request_client_ip : string;
}.

Definition get_user_agent (request : SynapseRequest) (default : string) : string :=
  match request_user_agent request with
  | Some ua => ua
  | None => default
  end.

Definition getClientIP (request : SynapseRequest) : string :=
  request_client_ip request.

(** Modelled from the spec: [synapse.types.UserID] is not part of
    [sso.py]; the local user id of localpart [bob] on server
    [example.org] is [@bob:example.org]. *)
Definition UserID_to_string (lp domain : string) : string :=
  "@" ++ lp ++ ":" ++ domain.

Definition USERNAME_MAPPING_SESSION_COOKIE_NAME : string :=
  "username_mapping_session".

(** [SsoHandler._MAP_USERNAME_RETRIES] *)
Definition _MAP_USERNAME_RETRIES : nat := 1000.

(** [SsoHandler._MAPPING_SESSION_VALIDITY_PERIOD_MS] *)
Definition _MAPPING_SESSION_VALIDITY_PERIOD_MS : Z := 15 * 60 * 1000.

Section Handler.

(** [W] is the state of everything outside the handler; [JsonDict] is the
    type of the extra login attributes, which the handler only passes on. *)
Context {W JsonDict : Type}.

(** [UsernameMappingSession] *)
Record UsernameMappingSession := {
  auth_provider_id : string;
  remote_user_id : string;
  session_display_name : option string;
  session_emails : list string;
  extra_login_attributes : option JsonDict;
  client_redirect_url : string;
  expiry_time_ms : Z;
}.

(** [SsoIdentityProvider] *)
Record SsoIdentityProvider := {
  idp_id : string;
  idp_name : string;
  idp_handle_redirect_request :
    SynapseRequest -> string -> W -> result string * W;
}.

(** The collaborators.  Store reads and the clock observe the world;
    everything else may change it.  Every call except the clock and the
    random string generator may raise. *)
Record Env := {
  (* hs.hostname *)
  server_name : string;
  (* hs.get_clock().time_msec() *)
  time_msec : W -> Z;
  (* synapse.util.stringutils.random_string *)
  random_string : nat -> W -> string * W;
  (* synapse.types.contains_invalid_mxid_characters *)
  contains_invalid_mxid_characters : string -> bool;
  (* urllib.parse.urlencode *)
  urlencode : list (string * string) -> string;
  (* hs.get_datastore() *)
  get_user_by_external_id : string -> string -> W -> result (option string);
  get_users_by_id_case_insensitive :
    string -> W -> result (list (string * string));
  record_user_external_id :
    string -> string -> string -> W -> result unit * W;
  (* hs.get_registration_handler().register_user *)
  register_user :
    string -> option string -> list string -> list (string * string) ->
    W -> result string * W;
  (* hs.get_auth_handler().complete_sso_login *)
  complete_sso_login :
    string -> SynapseRequest -> string -> option JsonDict ->
    W -> result unit * W;
}.

(** The calls the handler makes to its collaborators, in the order it
    makes them. *)
Inductive Event :=
| EvMapper (attempt : nat)
| EvGrandfather
| EvGetUserByExternalId (provider remote : string)
| EvGetUsersByIdCaseInsensitive (user_id : string)
| EvRecordUserExternalId (provider remote user_id : string)
| EvRegisterUser (lp : string) (dn : option string) (bind_emails : list string)
    (user_agent_ips : list (string * string))
| EvCompleteSsoLogin (user_id : string) (redirect : string)
    (extra : option JsonDict)
| EvAddCookie (name value expires path : string)
| EvRandomString (len : nat)
| EvIdpRedirect (idp : string) (redirect : string).

(** The handler's own dictionaries, the world, and the call log. *)
Record State := {
  _username_mapping_sessions : gmap string UsernameMappingSession;
  _identity_providers : gmap string SsoIdentityProvider;
  world : W;
  calls : list Event;
}.

Definition set_sessions (m : gmap string UsernameMappingSession) (s : State) : State :=
  {| _username_mapping_sessions := m;
     _identity_providers := _identity_providers s;
     world := world s;
     calls := calls s |}.

Definition set_providers (m : gmap string SsoIdentityProvider) (s : State) : State :=
  {| _username_mapping_sessions := _username_mapping_sessions s;
     _identity_providers := m;
     world := world s;
     calls := calls s |}.

Definition set_world (w : W) (s : State) : State :=
  {| _username_mapping_sessions := _username_mapping_sessions s;
     _identity_providers := _identity_providers s;
     world := w;
     calls := calls s |}.

Definition log (ev : Event) (s : State) : State :=
  {| _username_mapping_sessions := _username_mapping_sessions s;
     _identity_providers := _identity_providers s;
     world := world s;
     calls := calls s ++ [ev] |}.

(** ** The monad of handler methods *)

Definition M (A : Type) : Type := State -> result A * State.

Definition ret {A} (a : A) : M A := fun s => (Ok a, s).

Definition raise {A} (e : exn) : M A := fun s => (Raise e, s).

Definition bind {A B} (c : M A) (k : A -> M B) : M B :=
  fun s =>
    match c s with
    | (Ok a, s') => k a s'
    | (Raise e, s') => (Raise e, s')
    end.

Notation "x <- c ;; k" := (bind c (fun x => k))
  (at level 100, c at next level, right associativity).
Notation "c ;;; k" := (bind c (fun _ => k))
  (at level 100, right associativity).

Definition gets {A} (f : State -> A) : M A := fun s => (Ok (f s), s).

Definition modify (f : State -> State) : M unit := fun s => (Ok tt, f s).

(** A call that may change the world. *)
Definition call {A} (ev : Event) (f : W -> result A * W) : M A :=
  fun s =>
    let (r, w) := f (world s) in
    (r, set_world w (log ev s)).

(** A call that only observes the world. *)
Definition query {A} (ev : Event) (f : W -> result A) : M A :=
  fun s => (f (world s), log ev s).

Variable env : Env.

(** ** [_call_attribute_mapper] *)

(** The [try] around the mapper: [RedirectException] and
    [MappingException] pass, anything else becomes a [MappingException]
    with a fixed message, raised [from] the original. *)
Definition mapper_except (e : exn) : exn :=
  match e with
  | RedirectException _ _ => e
  | MappingException _ _ => e
  | _ =>
      MappingException
        "Could not extract user attributes from SSO response." (Some e)
  end.

Definition try_mapper
    (sso_to_matrix_id_mapper : nat -> W -> result UserAttributes * W)
    (i : nat) : M UserAttributes :=
  fun s =>
    match call (EvMapper i) (sso_to_matrix_id_mapper i) s with
    | (Ok attributes, s') => (Ok attributes, s')
    | (Raise e, s') => (Raise (mapper_except e), s')
    end.

(** [for i in range(...)] with [n] iterations left, the next one being
    iteration [i]; the [else] branch of the loop is the case [n = 0]. *)
Fixpoint attribute_mapper_loop
    (sso_to_matrix_id_mapper : nat -> W -> result UserAttributes * W)
    (n i : nat) : M UserAttributes :=
  match n with
  | O =>
      raise (MappingException
               "Unable to generate a Matrix ID from the SSO response" None)
  | S n' =>
      attributes <- try_mapper sso_to_matrix_id_mapper i ;;
      if negb (opt_truthy (localpart attributes)) then
        (* the mapper has not picked a localpart *)
        ret attributes
      else
        let user_id :=
          UserID_to_string (default "" (localpart attributes))
            (server_name env) in
        users <- query (EvGetUsersByIdCaseInsensitive user_id)
                   (get_users_by_id_case_insensitive env user_id) ;;
        match users with
        | [] => (* this mxid is free *) ret attributes
        | _ :: _ => attribute_mapper_loop sso_to_matrix_id_mapper n' (S i)
        end
  end.

Definition _call_attribute_mapper
    (sso_to_matrix_id_mapper : nat -> W -> result UserAttributes * W)
  : M UserAttributes :=
  attribute_mapper_loop sso_to_matrix_id_mapper _MAP_USERNAME_RETRIES 0.

(** ** [_redirect_to_username_picker] *)

(** The method never returns: it stores a new session under a fresh random
    id and raises the redirect to the username picker, with the session id
    in a cookie. *)
Definition _redirect_to_username_picker
    (auth_provider_id0 remote_user_id0 : string)
    (attributes : UserAttributes)
    (client_redirect_url0 : string)
    (extra_login_attributes0 : option JsonDict) : M Empty_set :=
  session_id <-
    call (EvRandomString 16)
      (fun w => let (r, w') := random_string env 16 w in (Ok r, w')) ;;
  now <- gets (fun s => time_msec env (world s)) ;;
  let session :=
    {| auth_provider_id := auth_provider_id0;
       remote_user_id := remote_user_id0;
       session_display_name := display_name attributes;
       session_emails := emails attributes;
       client_redirect_url := client_redirect_url0;
       expiry_time_ms := now + _MAPPING_SESSION_VALIDITY_PERIOD_MS;
       extra_login_attributes := extra_login_attributes0 |} in
  modify (fun s =>
    set_sessions
      (<[session_id := session]> (_username_mapping_sessions s)) s) ;;;
  (* set the cookie and redirect to the username picker *)
  raise (RedirectException "/_synapse/client/pick_username"
           [USERNAME_MAPPING_SESSION_COOKIE_NAME ++ "=" ++ session_id
              ++ "; path=/"]).

(** ** [_register_mapped_user] *)

(** [not attributes.localpart or contains_invalid_mxid_characters(...)] *)
Definition localpart_is_invalid (lp : option string) : bool :=
  match lp with
  | None => true
  | Some l =>
      if negb (str_truthy l) then true
      else contains_invalid_mxid_characters env l
  end.

(** ["%s" % (lp,)] for an [Optional[str]]. *)
Definition format_opt (lp : option string) : string :=
  match lp with
  | Some l => l
  | None => "None"
  end.

Definition _register_mapped_user
    (attributes : UserAttributes)
    (auth_provider_id0 remote_user_id0 user_agent ip_address : string)
  : M string :=
  if localpart_is_invalid (localpart attributes) then
    raise (MappingException
             ("localpart is invalid: " ++ format_opt (localpart attributes))
             None)
  else
    let lp := default "" (localpart attributes) in
    let user_agent_ips := [(user_agent, ip_address)] in
    registered_user_id <-
      call (EvRegisterUser lp (display_name attributes) (emails attributes)
              user_agent_ips)
        (register_user env lp (display_name attributes) (emails attributes)
           user_agent_ips) ;;
    call (EvRecordUserExternalId auth_provider_id0 remote_user_id0
            registered_user_id)
      (record_user_external_id env auth_provider_id0 remote_user_id0
         registered_user_id) ;;;
    ret registered_user_id.

(** ** [get_sso_user_by_remote_user_id] *)

Definition get_sso_user_by_remote_user_id
    (auth_provider_id0 remote_user_id0 : string) : M (option string) :=
  previously_registered_user_id <-
    query (EvGetUserByExternalId auth_provider_id0 remote_user_id0)
      (get_user_by_external_id env auth_provider_id0 remote_user_id0) ;;
  match previously_registered_user_id with
  | Some u => (* a match was found *) ret (Some u)
  | None => ret None
  end.

(** ** [complete_sso_login_request] *)

(** The body of [with await self._mapping_lock.queue(auth_provider_id)]:
    the embedding follows one request, for which taking and releasing the
    lock is a no-op.  The value of the block is the [user_id] bound when
    the block is left. *)
Definition find_or_register_user
    (auth_provider_id0 remote_user_id0 : string)
    (request : SynapseRequest)
    (client_redirect_url0 : string)
    (sso_to_matrix_id_mapper : nat -> W -> result UserAttributes * W)
    (grandfather_existing_users : W -> result (option string) * W)
    (extra_login_attributes0 : option JsonDict) : M string :=
  (* first of all, check if we already have a mapping for this user *)
  user_id <- get_sso_user_by_remote_user_id auth_provider_id0 remote_user_id0 ;;
  (* check for grandfathering of users *)
  user_id <-
    (if negb (opt_truthy user_id) then
       user_id <- call EvGrandfather grandfather_existing_users ;;
       (if opt_truthy user_id then
          call (EvRecordUserExternalId auth_provider_id0 remote_user_id0
                  (default "" user_id))
            (record_user_external_id env auth_provider_id0 remote_user_id0
               (default "" user_id))
        else ret tt) ;;;
       ret user_id
     else ret user_id) ;;
  (* otherwise, generate a new user *)
  if negb (opt_truthy user_id) then
    attributes <- _call_attribute_mapper sso_to_matrix_id_mapper ;;
    match localpart attributes with
    | None =>
        (* the mapper doesn't return a username: bail out with a redirect
           to the username picker *)
        never <- _redirect_to_username_picker auth_provider_id0
                   remote_user_id0 attributes client_redirect_url0
                   extra_login_attributes0 ;;
        match never : Empty_set with end
    | Some _ => ret tt
    end ;;;
    _register_mapped_user attributes auth_provider_id0 remote_user_id0
      (get_user_agent request "") (getClientIP request)
  else ret (default "" user_id).

Definition complete_sso_login_request
    (auth_provider_id0 remote_user_id0 : string)
    (request : SynapseRequest)
    (client_redirect_url0 : string)
    (sso_to_matrix_id_mapper : nat -> W -> result UserAttributes * W)
    (grandfather_existing_users : W -> result (option string) * W)
    (extra_login_attributes0 : option JsonDict) : M unit :=
  user_id <- find_or_register_user auth_provider_id0 remote_user_id0 request
               client_redirect_url0 sso_to_matrix_id_mapper
               grandfather_existing_users extra_login_attributes0 ;;
  call (EvCompleteSsoLogin user_id client_redirect_url0 extra_login_attributes0)
    (complete_sso_login env user_id request client_redirect_url0
       extra_login_attributes0).

(** ** The username picker *)

(** [_expire_old_sessions]: collect the ids of the sessions whose expiry
    time is at or before now, then delete them one by one. *)
Definition sessions_to_expire
    (now : Z) (sessions : gmap string UsernameMappingSession) : list string :=
  (filter (fun kv => expiry_time_ms kv.2 <= now) (map_to_list sessions)).*1.

Definition delete_all
    (to_expire : list string) (sessions : gmap string UsernameMappingSession)
  : gmap string UsernameMappingSession :=
  foldl (fun m session_id => delete session_id m) sessions to_expire.

Definition _expire_old_sessions : M unit :=
  now <- gets (fun s => time_msec env (world s)) ;;
  modify (fun s =>
    let to_expire := sessions_to_expire now (_username_mapping_sessions s) in
    set_sessions (delete_all to_expire (_username_mapping_sessions s)) s).

(** [check_username_availability] *)
Definition check_username_availability
    (localpart0 session_id : string) : M bool :=
  _expire_old_sessions ;;;
  session <- gets (fun s => _username_mapping_sessions s !! session_id) ;;
  match session with
  | None => raise (SynapseError 400 "unknown session" None)
  | Some _ =>
      if contains_invalid_mxid_characters env localpart0 then
        raise (SynapseError 400 ("localpart is invalid: " ++ localpart0) None)
      else
        let user_id := UserID_to_string localpart0 (server_name env) in
        user_infos <- query (EvGetUsersByIdCaseInsensitive user_id)
                        (get_users_by_id_case_insensitive env user_id) ;;
        ret (match user_infos with [] => true | _ :: _ => false end)
  end.

(** [handle_submit_username_request] *)
Definition handle_submit_username_request
    (request : SynapseRequest) (localpart0 session_id : string) : M unit :=
  _expire_old_sessions ;;;
  session <- gets (fun s => _username_mapping_sessions s !! session_id) ;;
  match session with
  | None => raise (SynapseError 400 "unknown session" None)
  | Some session =>
      let attributes :=
        {| localpart := Some localpart0;
           display_name := session_display_name session;
           emails := session_emails session |} in
      (* the following will raise a 400 error if the username has been
         taken in the meantime *)
      user_id <- _register_mapped_user attributes (auth_provider_id session)
                   (remote_user_id session) (get_user_agent request "")
                   (getClientIP request) ;;
      (* delete the mapping session and the cookie *)
      modify (fun s =>
        set_sessions (delete session_id (_username_mapping_sessions s)) s) ;;;
      modify (log (EvAddCookie USERNAME_MAPPING_SESSION_COOKIE_NAME ""
                     "Thu, 01 Jan 1970 00:00:00 GMT" "/")) ;;;
      call (EvCompleteSsoLogin user_id (client_redirect_url session)
              (extra_login_attributes session))
        (complete_sso_login env user_id request (client_redirect_url session)
           (extra_login_attributes session))
  end.

(** ** The identity providers *)

(** [register_identity_provider] *)
Definition register_identity_provider (p : SsoIdentityProvider) : M unit :=
  let p_id := idp_id p in
  providers <- gets _identity_providers ;;
  match providers !! p_id with
  | Some _ => raise AssertionError
  | None => modify (fun s => set_providers (<[p_id := p]> providers) s)
  end.

(** [get_identity_providers] *)
Definition get_identity_providers : M (gmap string SsoIdentityProvider) :=
  gets _identity_providers.

(** [handle_redirect_request] *)
Definition handle_redirect_request
    (request : SynapseRequest) (client_redirect_url0 : string) : M string :=
  providers <- gets _identity_providers ;;
  if (size providers =? 0)%nat then
    raise (SynapseError 400 "Homeserver not configured for SSO."
             (Some UNRECOGNIZED))
  else if (size providers =? 1)%nat then
    (* if we only have one auth provider, redirect to it directly *)
    match (map_to_list providers).*2 with
    | ap :: _ =>
        call (EvIdpRedirect (idp_id ap) client_redirect_url0)
          (idp_handle_redirect_request ap request client_redirect_url0)
    | [] => raise (OtherException "StopIteration")
    end
  else
    (* otherwise, redirect to the IDP picker *)
    ret ("/_synapse/client/pick_idp?"
           ++ urlencode env [("redirectUrl", client_redirect_url0)]).

End Handler.

Notation "x <- c ;; k" := (bind c (fun x => k))
  (at level 100, c at next level, right associativity).
Notation "c ;;; k" := (bind c (fun _ => k))
  (at level 100, right associativity).

Arguments Env : clear implicits.
Arguments State : clear implicits.
Arguments M : clear implicits.
Arguments Event : clear implicits.
Arguments UsernameMappingSession : clear implicits.
Arguments SsoIdentityProvider : clear implicits.

(** ** A small deployment

    A concrete world to run the handler in: a clock, the accounts and the
    external-id links of the store, and the strings the random generator
    will hand out. *)
Module Deployment.

Record outside := {
  clock_ms : Z;
  accounts : list string;
  links : list (string * string * string);
  tokens : list string;
}.

Definition json := list (string * string).

Definition lower_ascii (c : ascii) : ascii :=
  let n := nat_of_ascii c in
  if ((65 <=? n) && (n <=? 90))%nat then ascii_of_nat (n + 32) else c.

Fixpoint lower (s : string) : string :=
  match s with
  | EmptyString => EmptyString
  | String c s' => String (lower_ascii c) (lower s')
  end.

Definition same_id (a b : string) : bool := String.eqb (lower a) (lower b).

(** The characters allowed in the localpart of a user id: lower case
    letters, digits, and any of [_-./=]. *)
Definition allowed_char (c : ascii) : bool :=
  let n := nat_of_ascii c in
  ((97 <=? n) && (n <=? 122) || (48 <=? n) && (n <=? 57)
   || (n =? 95) || (n =? 45) || (n =? 46) || (n =? 47) || (n =? 61))%nat.

Fixpoint has_invalid (s : string) : bool :=
  match s with
  | EmptyString => false
  | String c s' => negb (allowed_char c) || has_invalid s'
  end.

(** Percent-encoding of a query component: letters, digits and [_.-~]
    stay, a space becomes [+], any other byte its [%XX]. *)
Definition unreserved (c : ascii) : bool :=
  let n := nat_of_ascii c in
  ((97 <=? n) && (n <=? 122) || (65 <=? n) && (n <=? 90)
   || (48 <=? n) && (n <=? 57)
   || (n =? 95) || (n =? 46) || (n =? 45) || (n =? 126))%nat.

Definition hex_digit (n : nat) : ascii :=
  nth n (list_ascii_of_string "0123456789ABCDEF") "0"%char.

Fixpoint quote_plus (s : string) : string :=
  match s with
  | EmptyString => EmptyString
  | String c s' =>
      let n := nat_of_ascii c in
      if unreserved c then String c (quote_plus s')
      else if (n =? 32)%nat then String "+" (quote_plus s')
      else
        String "%"
          (String (hex_digit (n / 16))
             (String (hex_digit (n mod 16)) (quote_plus s')))
  end.

Fixpoint find_link (p r : string) (l : list (string * string * string))
  : option string :=
  match l with
  | [] => None
  | (p', r', u) :: l' =>
      if String.eqb p p' && String.eqb r r' then Some u else find_link p r l'
  end.

Definition users_like (user_id : string) (w : outside) : list (string * string) :=
  map (fun u => (u, "")) (List.filter (same_id user_id) (accounts w)).

Definition add_account (u : string) (w : outside) : outside :=
  {| clock_ms := clock_ms w; accounts := accounts w ++ [u];
     links := links w; tokens := tokens w |}.

Definition add_link (p r u : string) (w : outside) : outside :=
  {| clock_ms := clock_ms w; accounts := accounts w;
     links := links w ++ [(p, r, u)]; tokens := tokens w |}.

Definition next_token (w : outside) : string * outside :=
  match tokens w with
  | [] => ("AAAAAAAAAAAAAAAA", w)
  | t :: ts =>
      (t, {| clock_ms := clock_ms w; accounts := accounts w;
             links := links w; tokens := ts |})
  end.

Definition create_account (domain lp : string) (w : outside)
  : result string * outside :=
  let user_id := UserID_to_string lp domain in
  match users_like user_id w with
  | [] => (Ok user_id, add_account user_id w)
  | _ :: _ =>
      (Raise (SynapseError 400 "User ID already taken." (Some USER_IN_USE)), w)
  end.

Definition env : Env outside json :=
  {| server_name := "example.org";
     time_msec := clock_ms;
     random_string := fun _ => next_token;
     contains_invalid_mxid_characters := has_invalid;
     urlencode := fun q =>
       String.concat "&"
         (map (fun kv => quote_plus kv.1 ++ "=" ++ quote_plus kv.2) q);
     get_user_by_external_id := fun p r w => Ok (find_link p r (links w));
     get_users_by_id_case_insensitive := fun u w => Ok (users_like u w);
     record_user_external_id := fun p r u w => (Ok tt, add_link p r u w);
     register_user := fun lp _ _ _ w => create_account "example.org" lp w;
     complete_sso_login := fun _ _ _ _ w => (Ok tt, w) |}.

Definition state := State outside json.

Definition initial (w : outside) : state :=
  {| _username_mapping_sessions := ∅;
     _identity_providers := ∅;
     world := w;
     calls := [] |}.

Definition request : SynapseRequest :=
  {| request_user_agent := Some "Mozilla/5.0"; request_client_ip := "10.0.0.1" |}.

Definition just (lp : option string) : UserAttributes :=
  {| localpart := lp; display_name := Some "Bob"; emails := ["bob@example.org"] |}.

(** A mapper that proposes [bob] every time. *)
Definition mapper_bob (i : nat) (w : outside) : result UserAttributes * outside :=
  (Ok (just (Some "bob")), w).

(** A mapper that proposes [bob], then [bob2]. *)
Definition mapper_bob_then_bob2 (i : nat) (w : outside)
  : result UserAttributes * outside :=
  (Ok (just (Some (if (i =? 0)%nat then "bob" else "bob2"))), w).

(** A mapper that leaves the choice to the user. *)
Definition mapper_none (i : nat) (w : outside) : result UserAttributes * outside :=
  (Ok (just None), w).

(** A mapper that returns the empty string as localpart. *)
Definition mapper_empty (i : nat) (w : outside) : result UserAttributes * outside :=
  (Ok (just (Some "")), w).

(** A mapper that fails on its own. *)
Definition mapper_raising (e : exn) (i : nat) (w : outside)
  : result UserAttributes * outside :=
  (Raise e, w).

Definition no_grandfather (w : outside) : result (option string) * outside :=
  (Ok None, w).

(** A world where [@bob:example.org] exists, under another capitalisation. *)
Definition w_bob : outside :=
  {| clock_ms := 1000000; accounts := ["@Bob:example.org"]; links := [];
     tokens := ["abcdefghijklmnop"] |}.

(** A world where [("oidc", "abc")] is linked to [@alice:example.org]. *)
Definition w_alice : outside :=
  {| clock_ms := 1000000; accounts := ["@alice:example.org"];
     links := [("oidc", "abc", "@alice:example.org")];
     tokens := ["abcdefghijklmnop"] |}.

Definition set_clock (t : Z) (w : outside) : outside :=
  {| clock_ms := t; accounts := accounts w; links := links w;
     tokens := tokens w |}.

Definition idp (name : string) : SsoIdentityProvider outside :=
  {| idp_id := name; idp_name := name;
     idp_handle_redirect_request := fun _ url w =>
       (Ok ("https://" ++ name ++ ".example.com/auth?next=" ++ url), w) |}.

(** The state after the login of a new user whose mapper picks no
    localpart: one picker session, stored at time 1000000. *)
Definition awaiting_username : state :=
  (complete_sso_login_request env "oidc" "xyz" request "https://client/"
     mapper_none no_grandfather None (initial w_bob)).2.

(** The session stored in [awaiting_username]. *)
Definition picker_session : UsernameMappingSession json :=
  {| auth_provider_id := "oidc";
     remote_user_id := "xyz";
     session_display_name := Some "Bob";
     session_emails := ["bob@example.org"];
     extra_login_attributes := None;
     client_redirect_url := "https://client/";
     expiry_time_ms := 1900000 |}.

(** The same state, later. *)
Definition at_time (t : Z) (s : state) : state :=
  set_world (set_clock t (world s)) s.

Definition with_providers (names : list string) (s : state) : state :=
  set_providers (list_to_map (map (fun n => (n, idp n)) names)) s.

End Deployment.

(** ** Observations on a run *)

Section Observations.

Context {W JsonDict : Type}.
Variable env : Env W JsonDict.

Implicit Types (s : State W JsonDict).

(** The attempt numbers the mapper was called with, in order. *)
Definition mapper_attempts (tr : list (Event JsonDict)) : list nat :=
  omap (fun ev => match ev with EvMapper i => Some i | _ => None end) tr.

(** Whether a call creates an account or writes an external-id link. *)
Definition is_registration (ev : Event JsonDict) : bool :=
  match ev with
  | EvRegisterUser _ _ _ _ => true
  | EvRecordUserExternalId _ _ _ => true
  | _ => false
  end.

Definition is_add_cookie (ev : Event JsonDict) : bool :=
  match ev with
  | EvAddCookie _ _ _ _ => true
  | _ => false
  end.

(** [k] attempts in a row, the first being attempt [i], in each of which
    the mapper returns a non-empty localpart whose user id the store
    reports as taken: the state they leave, if that is how they go. *)
Fixpoint colliding_attempts
    (mapper : nat -> W -> result UserAttributes * W)
    (k i : nat) s : option (State W JsonDict) :=
  match k with
  | O => Some s
  | S k' =>
      match mapper i (world s) with
      | (Ok a, w') =>
          if opt_truthy (localpart a) then
            let user_id :=
              UserID_to_string (default "" (localpart a)) (server_name env) in
            match get_users_by_id_case_insensitive env user_id w' with
            | Ok (_ :: _) =>
                colliding_attempts mapper k' (S i)
                  (log (EvGetUsersByIdCaseInsensitive user_id)
                     (set_world w' (log (EvMapper i) s)))
            | _ => None
            end
          else None
      | _ => None
      end
  end.

(** The session table after every session that has expired at [now] is
    removed. *)
Definition live_sessions
    (now : Z) (sessions : gmap string (UsernameMappingSession JsonDict))
  : gmap string (UsernameMappingSession JsonDict) :=
  filter (fun kv => now < expiry_time_ms kv.2) sessions.

(** Two states that differ in the call log only. *)
Definition same_data (s1 s2 : State W JsonDict) : Prop :=
  _username_mapping_sessions s1 = _username_mapping_sessions s2
  /\ _identity_providers s1 = _identity_providers s2
  /\ world s1 = world s2.

(** The state the expiry sweep leaves. *)
Definition swept s : State W JsonDict :=
  set_sessions
    (live_sessions (time_msec env (world s)) (_username_mapping_sessions s)) s.

(** What [check_username_availability] does once it has found the
    session. *)
Definition availability_of (localpart0 : string) : M W JsonDict bool :=
  if contains_invalid_mxid_characters env localpart0 then
    raise (SynapseError 400 ("localpart is invalid: " ++ localpart0) None)
  else
    let user_id := UserID_to_string localpart0 (server_name env) in
    user_infos <- query (EvGetUsersByIdCaseInsensitive user_id)
                    (get_users_by_id_case_insensitive env user_id) ;;
    ret (match user_infos with [] => true | _ :: _ => false end).

(** The attributes [handle_submit_username_request] registers: the chosen
    localpart with the display name and the emails of the session. *)
Definition chosen_attributes
    (localpart0 : string) (session : UsernameMappingSession JsonDict)
  : UserAttributes :=
  {| localpart := Some localpart0;
     display_name := session_display_name session;
     emails := session_emails session |}.

(** The registration [handle_submit_username_request] asks for once it has
    found the session. *)
Definition submit_registration
    (request : SynapseRequest) (localpart0 : string)
    (session : UsernameMappingSession JsonDict) : M W JsonDict string :=
  _register_mapped_user env (chosen_attributes localpart0 session)
    (auth_provider_id session) (remote_user_id session)
    (get_user_agent request "") (getClientIP request).

(** What [handle_submit_username_request] does after the registration has
    returned [user_id]. *)
Definition submit_completion
    (request : SynapseRequest) (session_id : string)
    (session : UsernameMappingSession JsonDict) (user_id : string)
  : M W JsonDict unit :=
  modify (fun s =>
    set_sessions (delete session_id (_username_mapping_sessions s)) s) ;;;
  modify (log (EvAddCookie USERNAME_MAPPING_SESSION_COOKIE_NAME ""
                 "Thu, 01 Jan 1970 00:00:00 GMT" "/")) ;;;
  call (EvCompleteSsoLogin user_id (client_redirect_url session)
          (extra_login_attributes session))
    (complete_sso_login env user_id request (client_redirect_url session)
       (extra_login_attributes session)).

(** A computation whose result and whose effect on the dictionaries and
    the world do not depend on the call log it starts from. *)
Definition log_blind {A} (c : M W JsonDict A) : Prop :=
  forall s1 s2, same_data s1 s2 ->
    (c s1).1 = (c s2).1 /\ same_data (c s1).2 (c s2).2.

(** The calls to [check_username_availability] made one after the other,
    each in the world of its own moment; the handler state they leave. *)
Definition after_checks
    (cs : list (string * string * W)) s : State W JsonDict :=
  foldl (fun s c =>
           (check_username_availability env c.1.1 c.1.2 (set_world c.2 s)).2)
    s cs.

End Observations.

(** * The rest of the handler *)

Section Rest.

Context {W JsonDict : Type}.
Variable env : Env W JsonDict.

(** A call to a collaborator outside the login flow: it may change the
    world and raise, and the call log does not follow it. *)
Definition handoff {A} (f : W -> result A * W) : M W JsonDict A :=
  fun s => let (r, w) := f (world s) in (r, set_world w s).

(** [complete_sso_ui_auth_request]; [complete_sso_ui_auth] is the method
    of the auth handler it ends with. *)
Definition complete_sso_ui_auth_request
    (complete_sso_ui_auth :
       string -> string -> SynapseRequest -> W -> result unit * W)
    (auth_provider_id0 remote_user_id0 ui_auth_session_id : string)
    (request : SynapseRequest) : M W JsonDict unit :=
  user_id <- get_sso_user_by_remote_user_id env auth_provider_id0
               remote_user_id0 ;;
  let user_id :=
    if negb (opt_truthy user_id) then
      (* let the UIA flow handle this the same as if they presented creds
         for a different user *)
      ""
    else default "" user_id in
  handoff (complete_sso_ui_auth user_id ui_auth_session_id request).

(** The providers registered one after the other, as at start-up. *)
Fixpoint register_all (ps : list (SsoIdentityProvider W)) : M W JsonDict unit :=
  match ps with
  | [] => ret tt
  | p :: ps' => register_identity_provider p ;;; register_all ps'
  end.

(** Every provider is stored under its own id. *)
Definition keyed_by_id (m : gmap string (SsoIdentityProvider W)) : Prop :=
  forall k p, m !! k = Some p -> idp_id p = k.

(** The expiry sweep run in the world [w]. *)
Definition sweep_at (w : W) (s : State W JsonDict) : State W JsonDict :=
  (_expire_old_sessions env (set_world w s)).2.

End Rest.

(** More of the small deployment. *)
Module Fixtures.

Import Deployment.

(** A grandfathering callback that finds [@alice:example.org]. *)
Definition grandfather_alice (w : outside) : result (option string) * outside :=
  (Ok (Some "@alice:example.org"), w).

(** A grandfathering callback that fails. *)
Definition grandfather_raising (e : exn) (w : outside)
  : result (option string) * outside :=
  (Raise e, w).

(** A mapper that proposes a localpart with a capital and a bang. *)
Definition mapper_invalid (i : nat) (w : outside)
  : result UserAttributes * outside :=
  (Ok (just (Some "Carol!")), w).

(** A mapper that proposes [carol]. *)
Definition mapper_carol (i : nat) (w : outside)
  : result UserAttributes * outside :=
  (Ok (just (Some "carol")), w).

(** The deployment with a store whose user lookup fails. *)
Definition env_store_down : Env outside json :=
  {| server_name := server_name env;
     time_msec := time_msec env;
     random_string := random_string env;
     contains_invalid_mxid_characters := contains_invalid_mxid_characters env;
     urlencode := urlencode env;
     get_user_by_external_id := get_user_by_external_id env;
     get_users_by_id_case_insensitive := fun _ _ =>
       Raise (OtherException "connection lost");
     record_user_external_id := record_user_external_id env;
     register_user := register_user env;
     complete_sso_login := complete_sso_login env |}.

(** An auth handler that accepts every completion of a UI auth. *)
Definition ui_auth_ok (user_id session : string) (request : SynapseRequest)
    (w : outside) : result unit * outside :=
  (Ok tt, w).

(** The state after two new users were sent to the picker, the second two
    hundred seconds after the first. *)
Definition two_waiting : state :=
  (complete_sso_login_request env "saml" "uvw" request "https://other/"
     mapper_none no_grandfather None
     (set_world
        {| clock_ms := 1200000; accounts := ["@Bob:example.org"];
           links := []; tokens := ["qrstuvwxyzabcdef"] |}
        awaiting_username)).2.

(** A login of a new user, after the link lookup and the grandfathering
    callback found nothing. *)
Definition looked_up : state :=
  set_world w_bob
    (log EvGrandfather
       (log (EvGetUserByExternalId "oidc" "xyz") (initial w_bob))).

(** The same login after the mapper proposed [bob], which is taken. *)
Definition after_collision : state :=
  log (EvGetUsersByIdCaseInsensitive "@bob:example.org")
    (set_world w_bob (log (EvMapper 0) looked_up)).

(** The world of [awaiting_username], its token used up. *)
Definition w_waiting : outside :=
  {| clock_ms := 1000000; accounts := ["@Bob:example.org"]; links := [];
     tokens := [] |}.

End Fixtures.

(** * Properties *)

Section Properties.

Context {W JsonDict : Type}.
Variable env : Env W JsonDict.

Implicit Types (s : State W JsonDict) (w : W) (a : UserAttributes).
Implicit Types (mapper : nat -> W -> result UserAttributes * W).

Local Open Scope list_scope.

(** ** The attribute mapping loop *)

(** One iteration of the loop, spelled out. *)
Lemma loop_unfold mapper n i s :
  attribute_mapper_loop env mapper (S n) i s
  = match mapper i (world s) with
    | (Raise e, w') =>
        (Raise (mapper_except e), set_world w' (log (EvMapper i) s))
    | (Ok a, w') =>
        let s1 := set_world w' (log (EvMapper i) s) in
        if opt_truthy (localpart a) then
          let user_id :=
            UserID_to_string (default "" (localpart a)) (server_name env) in
          match get_users_by_id_case_insensitive env user_id w' with
          | Raise e => (Raise e, log (EvGetUsersByIdCaseInsensitive user_id) s1)
          | Ok [] => (Ok a, log (EvGetUsersByIdCaseInsensitive user_id) s1)
          | Ok (_ :: _) =>
              attribute_mapper_loop env mapper n (S i)
                (log (EvGetUsersByIdCaseInsensitive user_id) s1)
          end
        else (Ok a, s1)
    end.
Proof.
  cbn [attribute_mapper_loop].
  unfold bind, try_mapper, call, query, ret.
  destruct (mapper i (world s)) as [[a|e] w']; [|done].
  destruct (opt_truthy (localpart a)); [|done]. cbn [negb world set_world log].
  by destruct (get_users_by_id_case_insensitive env _ w') as [[|u us]|e].
Qed.

(** Colliding attempts send the loop into the iteration after them. *)
Lemma loop_after_collisions mapper k : forall n i s s',
  colliding_attempts env mapper k i s = Some s' ->
  attribute_mapper_loop env mapper (k + n) i s
  = attribute_mapper_loop env mapper n (k + i) s'.
Proof.
  induction k as [|k IH]; intros n i s s' Hk; simpl in Hk.
  - by inversion Hk.
  - change (S k + n)%nat with (S (k + n)). rewrite loop_unfold.
    destruct (mapper i (world s)) as [[a|e] w']; [|done].
    destruct (opt_truthy (localpart a)); [|done]. cbv zeta.
    destruct (get_users_by_id_case_insensitive env _ w') as [[|u us]|e];
      [done| |done].
    rewrite (IH n (S i) _ s' Hk). f_equal. lia.
Qed.

Lemma colliding_attempts_calls mapper k : forall i s s',
  colliding_attempts env mapper k i s = Some s' ->
  mapper_attempts (calls s') = mapper_attempts (calls s) ++ seq i k
  /\ _username_mapping_sessions s' = _username_mapping_sessions s
  /\ _identity_providers s' = _identity_providers s.
Proof.
  induction k as [|k IH]; intros i s s' Hk; simpl in Hk.
  - inversion Hk; subst. by rewrite app_nil_r.
  - destruct (mapper i (world s)) as [[a|e] w'] eqn:Hm; [|done].
    destruct (opt_truthy (localpart a)) eqn:Hlp; [|done].
    destruct (get_users_by_id_case_insensitive env _ w') as [[|u us]|e]
      eqn:Hq; [done| |done].
    apply IH in Hk as (Hc & Hs & Hp). simpl in *.
    split; [|done]. rewrite Hc. unfold mapper_attempts.
    rewrite !omap_app. simpl. by rewrite <- !app_assoc.
Qed.

(** A mapper that collides in every world of an invariant collides as
    many times as it is asked. *)
Lemma always_colliding mapper (Inv : W -> Prop) :
  (forall i w, Inv w ->
     exists a w' u us,
       mapper i w = (Ok a, w')
       /\ opt_truthy (localpart a) = true
       /\ get_users_by_id_case_insensitive env
            (UserID_to_string (default "" (localpart a)) (server_name env)) w'
          = Ok (u :: us)
       /\ Inv w') ->
  forall k i s, Inv (world s) ->
    exists s', colliding_attempts env mapper k i s = Some s' /\ Inv (world s').
Proof.
  intros Hcol. induction k as [|k IH]; intros i s Hinv; simpl.
  - eauto.
  - destruct (Hcol i _ Hinv) as (a & w' & u & us & Hm & Hlp & Hq & Hinv').
    rewrite Hm, Hlp, Hq. apply IH. done.
Qed.

(** C1: a mapper whose localpart is never empty and always taken is asked
    exactly [_MAP_USERNAME_RETRIES] = 1000 times, for the attempts 0 to
    999 in order, and the loop then raises its [MappingException]. *)
Theorem call_attribute_mapper_gives_up mapper (Inv : W -> Prop) s
  (Hinv : Inv (world s))
  (Hcollide : forall i w, Inv w ->
     exists a w' u us,
       mapper i w = (Ok a, w')
       /\ opt_truthy (localpart a) = true
       /\ get_users_by_id_case_insensitive env
            (UserID_to_string (default "" (localpart a)) (server_name env)) w'
          = Ok (u :: us)
       /\ Inv w') :
  exists s',
    _call_attribute_mapper env mapper s
    = (Raise (MappingException
                "Unable to generate a Matrix ID from the SSO response" None),
       s')
    /\ mapper_attempts (calls s') = mapper_attempts (calls s) ++ seq 0 1000
    /\ length (mapper_attempts (calls s'))
       = (length (mapper_attempts (calls s)) + 1000)%nat
    /\ _username_mapping_sessions s' = _username_mapping_sessions s.
Proof.
  destruct (always_colliding mapper Inv Hcollide _MAP_USERNAME_RETRIES 0%nat
              s Hinv) as (s' & Hk & _).
  exists s'. unfold _call_attribute_mapper.
  rewrite <- (Nat.add_0_r _MAP_USERNAME_RETRIES) at 1.
  rewrite (loop_after_collisions _ _ _ _ _ _ Hk).
  apply colliding_attempts_calls in Hk as (Hc & Hs & _).
  change _MAP_USERNAME_RETRIES with 1000%nat in Hc.
  repeat split; [done| |done].
  rewrite Hc, length_app, length_seq. done.
Qed.

Lemma opt_truthy_false (o : option string) :
  opt_truthy o = false <-> o = None \/ o = Some ""%string.
Proof.
  destruct o as [l|]; simpl; [|by intuition].
  unfold str_truthy. destruct (String.eqb_spec l "") as [->|Hne]; simpl.
  - by intuition.
  - split; [done|]. by intros [|[= ->]].
Qed.

Lemma colliding_attempts_snoc mapper k : forall i s sk a w' u us,
  colliding_attempts env mapper k i s = Some sk ->
  mapper (k + i)%nat (world sk) = (Ok a, w') ->
  opt_truthy (localpart a) = true ->
  get_users_by_id_case_insensitive env
    (UserID_to_string (default "" (localpart a)) (server_name env)) w'
  = Ok (u :: us) ->
  colliding_attempts env mapper (S k) i s
  = Some (log (EvGetUsersByIdCaseInsensitive
                 (UserID_to_string (default "" (localpart a)) (server_name env)))
            (set_world w' (log (EvMapper (k + i)) sk))).
Proof.
  induction k as [|k IH]; intros i s sk a w' u us Hk Hm Hlp Hq.
  - inversion Hk; subst. simpl in *. by rewrite Hm, Hlp, Hq.
  - cbn [colliding_attempts] in Hk |- *.
    destruct (mapper i (world s)) as [[a0|e0] w0]; [|done].
    destruct (opt_truthy (localpart a0)); [|done].
    destruct (get_users_by_id_case_insensitive env _ w0) as [[|u0 us0]|e0];
      [done| |done].
    replace (S k + i)%nat with (k + S i)%nat in * by lia.
    by apply (IH (S i) _ sk a w' u us).
Qed.

(** The loop started at the top, after [i] colliding attempts. *)
Lemma call_attribute_mapper_after mapper i s si :
  (i <= _MAP_USERNAME_RETRIES)%nat ->
  colliding_attempts env mapper i 0 s = Some si ->
  _call_attribute_mapper env mapper s
  = attribute_mapper_loop env mapper (_MAP_USERNAME_RETRIES - i) i si.
Proof.
  intros Hi Hk. unfold _call_attribute_mapper.
  replace _MAP_USERNAME_RETRIES
    with (i + (_MAP_USERNAME_RETRIES - i))%nat at 1 by lia.
  rewrite (loop_after_collisions _ _ _ _ _ _ Hk). f_equal. lia.
Qed.

(** C2: let attempts 0 to [i - 1] all return a non-empty localpart whose
    user id is taken, and let attempt [i] (one of the 1000) return the
    attributes [a].  If the localpart of [a] is absent or empty, the loop
    returns [a] as it is, without asking the store; if it is non-empty and
    the store knows no user of that id, under any capitalisation, the loop
    returns [a]; if the id is taken, the loop goes on with attempt
    [i + 1].  The mapper has been called for the attempts 0 to [i] and no
    other. *)
Theorem call_attribute_mapper_stops mapper s i si a w'
  (Hi : (i < _MAP_USERNAME_RETRIES)%nat)
  (Hbefore : colliding_attempts env mapper i 0 s = Some si)
  (Hmap : mapper i (world si) = (Ok a, w')) :
  let s1 := set_world w' (log (EvMapper i) si) in
  let user_id :=
    UserID_to_string (default "" (localpart a)) (server_name env) in
  let s2 := log (EvGetUsersByIdCaseInsensitive user_id) s1 in
  (localpart a = None \/ localpart a = Some ""%string ->
     _call_attribute_mapper env mapper s = (Ok a, s1))
  /\ (opt_truthy (localpart a) = true ->
      get_users_by_id_case_insensitive env user_id w' = Ok [] ->
      _call_attribute_mapper env mapper s = (Ok a, s2))
  /\ (opt_truthy (localpart a) = true ->
      forall u us,
        get_users_by_id_case_insensitive env user_id w' = Ok (u :: us) ->
        _call_attribute_mapper env mapper s
        = attribute_mapper_loop env mapper (_MAP_USERNAME_RETRIES - S i) (S i)
            s2)
  /\ mapper_attempts (calls s2) = mapper_attempts (calls s) ++ seq 0 (S i)
  /\ mapper_attempts (calls s1) = mapper_attempts (calls s) ++ seq 0 (S i).
Proof.
  intros s1 user_id s2.
  pose proof (call_attribute_mapper_after mapper i s si ltac:(lia) Hbefore)
    as Hrun.
  replace (_MAP_USERNAME_RETRIES - i)%nat
    with (S (_MAP_USERNAME_RETRIES - S i)) in Hrun by lia.
  rewrite loop_unfold, Hmap in Hrun. cbv zeta in Hrun.
  destruct (colliding_attempts_calls mapper i 0 s si Hbefore) as (Hc & _ & _).
  assert (mapper_attempts (calls s1)
          = mapper_attempts (calls s) ++ seq 0 (S i)) as Hc1.
  { subst s1. cbn [calls set_world log]. unfold mapper_attempts in *.
    rewrite omap_app, Hc, seq_S, <- app_assoc. done. }
  repeat split.
  - intros Hlp%opt_truthy_false. by rewrite Hlp in Hrun.
  - intros Hlp Hq. fold user_id in Hrun. by rewrite Hlp, Hq in Hrun.
  - intros Hlp u us Hq. fold user_id in Hrun. by rewrite Hlp, Hq in Hrun.
  - rewrite <- Hc1. subst s2. cbn [calls log]. unfold mapper_attempts.
    rewrite omap_app. cbn [omap]. by rewrite app_nil_r.
  - done.
Qed.

(** C5: let attempts 0 to [i - 1] collide and let the mapper raise [e] at
    attempt [i].  The loop raises at once: [e] itself when it is a
    [RedirectException] or a [MappingException]; otherwise a
    [MappingException] with the fixed message "Could not extract user
    attributes from SSO response.", in which nothing of [e] appears. *)
Theorem call_attribute_mapper_raises mapper s i si e w'
  (Hi : (i < _MAP_USERNAME_RETRIES)%nat)
  (Hbefore : colliding_attempts env mapper i 0 s = Some si)
  (Hmap : mapper i (world si) = (Raise e, w')) :
  exists r,
    _call_attribute_mapper env mapper s
    = (Raise r, set_world w' (log (EvMapper i) si))
    /\ match e with
       | RedirectException _ _ | MappingException _ _ => r = e
       | _ =>
           r = MappingException
                 "Could not extract user attributes from SSO response."
                 (Some e)
           /\ exn_msg r
              = "Could not extract user attributes from SSO response."%string
       end.
Proof.
  pose proof (call_attribute_mapper_after mapper i s si ltac:(lia) Hbefore)
    as Hrun.
  replace (_MAP_USERNAME_RETRIES - i)%nat
    with (S (_MAP_USERNAME_RETRIES - S i)) in Hrun by lia.
  rewrite loop_unfold, Hmap in Hrun.
  exists (mapper_except e). split; [done|]. by destruct e.
Qed.

(** ** The expiry sweep *)

Lemma delete_all_lookup (ks : list string) :
  forall (m : gmap string (UsernameMappingSession JsonDict)) k,
    delete_all ks m !! k = if decide (k ∈ ks) then None else m !! k.
Proof.
  unfold delete_all.
  induction ks as [|k0 ks IH]; intros m k; cbn [foldl].
  - case_decide as Hin; [by apply elem_of_nil in Hin|done].
  - rewrite IH. destruct (decide (k = k0)) as [->|Hne].
    + rewrite lookup_delete_eq.
      rewrite (decide_True (P := k0 ∈ k0 :: ks)) by apply list_elem_of_here.
      by case_decide.
    + rewrite lookup_delete_ne by done.
      destruct (decide (k ∈ ks)) as [Hin|Hout].
      * rewrite decide_True; [done|by apply list_elem_of_further].
      * rewrite decide_False; [done|].
        intros [Heq|Hin]%elem_of_cons; done.
Qed.

Lemma sessions_to_expire_spec now
    (m : gmap string (UsernameMappingSession JsonDict)) k :
  k ∈ sessions_to_expire now m
  <-> exists x, m !! k = Some x /\ expiry_time_ms x <= now.
Proof.
  unfold sessions_to_expire. rewrite list_elem_of_fmap. split.
  - intros ([k' x] & -> & Hin). apply list_elem_of_filter in Hin as [Hexp Hin].
    apply elem_of_map_to_list in Hin. eauto.
  - intros (x & Hk & Hexp). exists (k, x). split; [done|].
    apply list_elem_of_filter. split; [done|]. by apply elem_of_map_to_list.
Qed.

(** Deleting the collected ids one by one leaves the sessions that are
    still live. *)
Lemma expire_leaves_live now
    (m : gmap string (UsernameMappingSession JsonDict)) :
  delete_all (sessions_to_expire now m) m = live_sessions now m.
Proof.
  apply map_eq. intros k. rewrite delete_all_lookup. unfold live_sessions.
  destruct (m !! k) as [x|] eqn:Hk.
  - destruct (decide (expiry_time_ms x <= now)) as [Hexp|Hlive].
    + rewrite decide_True by (apply sessions_to_expire_spec; eauto).
      symmetry. apply map_lookup_filter_None. right. intros x' Hx'.
      rewrite Hk in Hx'. inversion Hx'; subst. simpl. lia.
    + rewrite decide_False.
      * symmetry. apply map_lookup_filter_Some. split; [done|]. simpl. lia.
      * intros (x' & Hx' & Hexp)%sessions_to_expire_spec.
        rewrite Hk in Hx'. inversion Hx'; subst. lia.
  - case_decide; symmetry; apply map_lookup_filter_None; by left.
Qed.

Lemma live_sessions_lookup now
    (m : gmap string (UsernameMappingSession JsonDict)) k :
  live_sessions now m !! k
  = match m !! k with
    | Some x => if decide (expiry_time_ms x <= now) then None else Some x
    | None => None
    end.
Proof.
  unfold live_sessions. destruct (m !! k) as [x|] eqn:Hk.
  - case_decide.
    + apply map_lookup_filter_None. right. intros x' Hx'.
      rewrite Hk in Hx'. inversion Hx'; subst. simpl. lia.
    + apply map_lookup_filter_Some. split; [done|]. simpl. lia.
  - apply map_lookup_filter_None. by left.
Qed.

Lemma expire_old_sessions_run s :
  _expire_old_sessions env s = (Ok tt, swept env s).
Proof.
  unfold _expire_old_sessions, swept, bind, gets, modify. cbv zeta.
  by rewrite expire_leaves_live.
Qed.

(** ** The username picker sessions *)

(** Both picker entry points sweep, then look the session up. *)
Lemma check_username_availability_run lp sid s :
  check_username_availability env lp sid s
  = match _username_mapping_sessions (swept env s) !! sid with
    | Some _ => availability_of env lp (swept env s)
    | None => (Raise (SynapseError 400 "unknown session" None), swept env s)
    end.
Proof.
  unfold check_username_availability, bind at 1.
  rewrite expire_old_sessions_run. unfold bind at 1, gets.
  by destruct (_username_mapping_sessions (swept env s) !! sid).
Qed.

Lemma handle_submit_username_request_run request lp sid s :
  handle_submit_username_request env request lp sid s
  = match _username_mapping_sessions (swept env s) !! sid with
    | Some session =>
        (user_id <- submit_registration env request lp session ;;
         submit_completion env request sid session user_id) (swept env s)
    | None => (Raise (SynapseError 400 "unknown session" None), swept env s)
    end.
Proof.
  unfold handle_submit_username_request, bind at 1.
  rewrite expire_old_sessions_run. unfold bind at 1, gets.
  by destruct (_username_mapping_sessions (swept env s) !! sid).
Qed.

Lemma redirect_to_username_picker_run p r a url extra s sid w1 :
  random_string env 16 (world s) = (sid, w1) ->
  _redirect_to_username_picker env p r a url extra s
  = (Raise (RedirectException "/_synapse/client/pick_username"
              [(USERNAME_MAPPING_SESSION_COOKIE_NAME +:+ "=" +:+ sid
                  +:+ "; path=/")%string]),
     set_sessions
       (<[sid :=
            {| auth_provider_id := p;
               remote_user_id := r;
               session_display_name := display_name a;
               session_emails := emails a;
               extra_login_attributes := extra;
               client_redirect_url := url;
               expiry_time_ms :=
                 time_msec env w1 + _MAPPING_SESSION_VALIDITY_PERIOD_MS |}]>
          (_username_mapping_sessions s))
       (set_world w1 (log (EvRandomString 16) s))).
Proof.
  intros Hrand.
  unfold _redirect_to_username_picker, bind, call, gets, modify, raise.
  by rewrite Hrand.
Qed.

(** C7: a session stored by [_redirect_to_username_picker] at time [T]
    expires at [T + 15 min].  While a session with that expiry time is in
    the table, [check_username_availability] and
    [handle_submit_username_request] find it whenever the clock reads less
    than [T + 15 min] (so at [T + 15 min - 1 ms]) and raise "unknown
    session" whenever it reads [T + 15 min] or more: the sweep they start
    with removes the sessions whose expiry time is at or before the
    reading of the clock, and no other. *)
Theorem picker_session_expiry :
  (* creation *)
  (forall p r a url extra s sid w1,
     random_string env 16 (world s) = (sid, w1) ->
     exists session,
       _username_mapping_sessions
         (_redirect_to_username_picker env p r a url extra s).2 !! sid
       = Some session
       /\ expiry_time_ms session = time_msec env w1 + 15 * 60 * 1000)
  (* lookup *)
  /\ (forall s sid session T request lp,
        _username_mapping_sessions s !! sid = Some session ->
        expiry_time_ms session = T + 15 * 60 * 1000 ->
        let now := time_msec env (world s) in
        (now < T + 15 * 60 * 1000 ->
           _username_mapping_sessions (swept env s) !! sid = Some session
           /\ check_username_availability env lp sid s
              = availability_of env lp (swept env s)
           /\ handle_submit_username_request env request lp sid s
              = (user_id <- submit_registration env request lp session ;;
                 submit_completion env request sid session user_id)
                  (swept env s))
        /\ (T + 15 * 60 * 1000 <= now ->
             _username_mapping_sessions (swept env s) !! sid = None
             /\ check_username_availability env lp sid s
                = (Raise (SynapseError 400 "unknown session" None), swept env s)
             /\ handle_submit_username_request env request lp sid s
                = (Raise (SynapseError 400 "unknown session" None),
                   swept env s)))
  (* the sweep *)
  /\ (forall s,
        _expire_old_sessions env s = (Ok tt, swept env s)
        /\ forall k,
             _username_mapping_sessions (swept env s) !! k
             = match _username_mapping_sessions s !! k with
               | Some x =>
                   if decide (expiry_time_ms x <= time_msec env (world s))
                   then None else Some x
               | None => None
               end).
Proof.
  split; [|split].
  - intros p r a url extra s sid w1 Hrand.
    rewrite (redirect_to_username_picker_run _ _ _ _ _ _ _ _ Hrand).
    eexists. split; [apply lookup_insert_eq|done].
  - intros s sid session T request lp Hsid Hexp now.
    assert (_username_mapping_sessions (swept env s) !! sid
            = if decide (expiry_time_ms session <= now) then None
              else Some session) as Hlook.
    { unfold swept. cbn [_username_mapping_sessions set_sessions].
      by rewrite live_sessions_lookup, Hsid. }
    rewrite check_username_availability_run,
      handle_submit_username_request_run, Hlook.
    split; intros Hnow.
    + by rewrite decide_False by lia.
    + by rewrite decide_True by lia.
  - intros s. split; [apply expire_old_sessions_run|]. intros k.
    unfold swept. cbn [_username_mapping_sessions set_sessions].
    apply live_sessions_lookup.
Qed.

(** ** Computations that do not read the call log *)

Lemma same_data_refl s : same_data s s.
Proof. by repeat split. Qed.

Lemma same_data_sym s1 s2 : same_data s1 s2 -> same_data s2 s1.
Proof. intros (Hs & Hp & Hw). by repeat split. Qed.

Lemma same_data_trans s1 s2 s3 :
  same_data s1 s2 -> same_data s2 s3 -> same_data s1 s3.
Proof.
  intros (Hs & Hp & Hw) (Hs' & Hp' & Hw'). repeat split; congruence.
Qed.

Lemma same_data_log ev s : same_data (log ev s) s.
Proof. by repeat split. Qed.

Lemma log_blind_ret {A} (x : A) : log_blind (ret (W := W) (JsonDict := JsonDict) x).
Proof. by intros s1 s2 H. Qed.

Lemma log_blind_raise {A} e :
  log_blind (raise (W := W) (JsonDict := JsonDict) (A := A) e).
Proof. by intros s1 s2 H. Qed.

Lemma log_blind_bind {A B} (c : M W JsonDict A) (k : A -> M W JsonDict B) :
  log_blind c -> (forall x, log_blind (k x)) -> log_blind (bind c k).
Proof.
  intros Hc Hk s1 s2 H. unfold bind.
  destruct (Hc s1 s2 H) as [Hr Hs].
  destruct (c s1) as [[x|e] s1'], (c s2) as [[x'|e'] s2'];
    cbn [fst snd] in *; inversion Hr; subst.
  - by apply Hk.
  - done.
Qed.

Lemma log_blind_call {A} ev (f : W -> result A * W) :
  log_blind (call (JsonDict := JsonDict) ev f).
Proof.
  intros s1 s2 (Hs & Hp & Hw). unfold call. rewrite Hw.
  destruct (f (world s2)) as [r w']. simpl. by repeat split.
Qed.

Lemma log_blind_query {A} ev (f : W -> result A) :
  log_blind (query (JsonDict := JsonDict) ev f).
Proof.
  intros s1 s2 (Hs & Hp & Hw). unfold query. rewrite Hw. simpl.
  by repeat split.
Qed.

Lemma log_blind_gets {A} (f : State W JsonDict -> A) :
  (forall s1 s2, same_data s1 s2 -> f s1 = f s2) -> log_blind (gets f).
Proof. intros Hf s1 s2 H. unfold gets. simpl. by rewrite (Hf s1 s2 H). Qed.

Lemma log_blind_modify (f : State W JsonDict -> State W JsonDict) :
  (forall s1 s2, same_data s1 s2 -> same_data (f s1) (f s2)) ->
  log_blind (modify f).
Proof. intros Hf s1 s2 H. unfold modify. simpl. split; [done|by apply Hf]. Qed.

Lemma log_blind_register_mapped_user a p r ua ip :
  log_blind (_register_mapped_user env a p r ua ip).
Proof.
  unfold _register_mapped_user.
  destruct (localpart_is_invalid env (localpart a)).
  - apply log_blind_raise.
  - apply log_blind_bind; [apply log_blind_call|]. intros uid.
    apply log_blind_bind; [apply log_blind_call|]. intros _.
    apply log_blind_ret.
Qed.

Lemma log_blind_submit_completion request sid session uid :
  log_blind (submit_completion env request sid session uid).
Proof.
  unfold submit_completion.
  apply log_blind_bind.
  { apply log_blind_modify. intros s1 s2 (Hs & Hp & Hw).
    repeat split; simpl; congruence. }
  intros _. apply log_blind_bind.
  { apply log_blind_modify. intros s1 s2 (Hs & Hp & Hw).
    repeat split; simpl; congruence. }
  intros _. apply log_blind_call.
Qed.

(** The submission depends on the state through the swept table, the
    providers and the world only. *)
Lemma submit_after_sweep request lp sid s1 s2 :
  same_data (swept env s1) (swept env s2) ->
  (handle_submit_username_request env request lp sid s1).1
  = (handle_submit_username_request env request lp sid s2).1
  /\ same_data (handle_submit_username_request env request lp sid s1).2
       (handle_submit_username_request env request lp sid s2).2.
Proof.
  intros Hsame. rewrite !handle_submit_username_request_run.
  destruct Hsame as (Hs & Hp & Hw). rewrite Hs.
  destruct (_username_mapping_sessions (swept env s2) !! sid) as [session|].
  - apply log_blind_bind; [|by intros; apply log_blind_submit_completion|done].
    apply log_blind_register_mapped_user.
  - done.
Qed.

(** ** The availability check *)

(** Whatever it returns, the check leaves the swept state, with at most
    one store read added to the call log. *)
Lemma check_username_availability_effect lp sid s :
  same_data (check_username_availability env lp sid s).2 (swept env s).
Proof.
  rewrite check_username_availability_run.
  destruct (_username_mapping_sessions (swept env s) !! sid); [|done].
  unfold availability_of.
  destruct (contains_invalid_mxid_characters env lp); [done|].
  unfold bind, query, ret. cbv zeta.
  destruct (get_users_by_id_case_insensitive env _ _); apply same_data_log.
Qed.

Lemma live_sessions_twice t1 t
    (m : gmap string (UsernameMappingSession JsonDict)) :
  t1 <= t -> live_sessions t (live_sessions t1 m) = live_sessions t m.
Proof.
  intros Ht. apply map_eq. intros k. rewrite !live_sessions_lookup.
  destruct (m !! k) as [x|]; [|done].
  destruct (decide (expiry_time_ms x <= t1)).
  - by rewrite decide_True by lia.
  - done.
Qed.

Lemma after_checks_sessions t (cs : list (string * string * W)) : forall s,
  Forall (fun c => time_msec env c.2 <= t) cs ->
  live_sessions t (_username_mapping_sessions (after_checks env cs s))
  = live_sessions t (_username_mapping_sessions s)
  /\ _identity_providers (after_checks env cs s) = _identity_providers s.
Proof.
  unfold after_checks.
  induction cs as [|c cs IH]; intros s Hall; cbn [foldl]; [done|].
  inversion Hall as [|? ? Hc Hcs]; subst.
  destruct (IH (check_username_availability env c.1.1 c.1.2
                  (set_world c.2 s)).2 Hcs) as [Hs Hp].
  rewrite Hs, Hp.
  destruct (check_username_availability_effect c.1.1 c.1.2 (set_world c.2 s))
    as (Hs' & Hp' & _).
  rewrite Hs', Hp'. cbn [swept set_sessions set_world world
    _username_mapping_sessions _identity_providers].
  split; [|done]. by apply live_sessions_twice.
Qed.

(** C8: with a session that is in the table and has not expired, and a
    localpart without invalid characters, [check_username_availability]
    returns [True] exactly when the store knows no user of the derived id,
    under any capitalisation.  Whatever its arguments and its outcome, it
    leaves the providers and the world as they were and the session table
    swept: every session still there is one that was there, unchanged.
    Any number of calls to it, each at a time not after the submission,
    leave the outcome of a following [handle_submit_username_request]
    what it would have been without them. *)
Theorem check_username_availability_reads_only s sid session lp users
  (Hsid : _username_mapping_sessions s !! sid = Some session)
  (Hlive : time_msec env (world s) < expiry_time_ms session)
  (Hvalid : contains_invalid_mxid_characters env lp = false)
  (Hstore : get_users_by_id_case_insensitive env
              (UserID_to_string lp (server_name env)) (world s)
            = Ok users) :
  (exists b,
     check_username_availability env lp sid s
     = (Ok b,
        log (EvGetUsersByIdCaseInsensitive
               (UserID_to_string lp (server_name env)))
          (swept env s))
     /\ (b = true <-> users = []))
  /\ (forall lp' sid' s',
        let s'' := (check_username_availability env lp' sid' s').2 in
        same_data s'' (swept env s')
        /\ world s'' = world s'
        /\ forall k x,
             _username_mapping_sessions s'' !! k = Some x ->
             _username_mapping_sessions s' !! k = Some x)
  /\ (forall (cs : list (string * string * W)) w request lp0 sid0,
        Forall (fun c => time_msec env c.2 <= time_msec env w) cs ->
        let with_checks :=
          handle_submit_username_request env request lp0 sid0
            (set_world w (after_checks env cs s)) in
        let without_checks :=
          handle_submit_username_request env request lp0 sid0
            (set_world w s) in
        with_checks.1 = without_checks.1
        /\ same_data with_checks.2 without_checks.2).
Proof.
  split; [|split].
  - rewrite check_username_availability_run.
    unfold swept at 1. cbn [_username_mapping_sessions set_sessions].
    rewrite live_sessions_lookup, Hsid, decide_False by lia.
    unfold availability_of. rewrite Hvalid.
    unfold bind, query, ret. cbn [swept set_sessions world].
    rewrite Hstore. destruct users as [|u us].
    + by exists true.
    + exists false. by split.
  - intros lp' sid' s' s''.
    pose proof (check_username_availability_effect lp' sid' s')
      as (Hs & Hp & Hw).
    repeat split; try done.
    intros k x. subst s''. rewrite Hs. unfold swept.
    cbn [_username_mapping_sessions set_sessions].
    rewrite live_sessions_lookup.
    destruct (_username_mapping_sessions s' !! k) as [y|]; [|done].
    by case_decide.
  - intros cs w request lp0 sid0 Hall. cbv zeta.
    apply submit_after_sweep.
    destruct (after_checks_sessions _ cs s Hall) as [Hs Hp].
    unfold swept, same_data.
    cbn [_username_mapping_sessions _identity_providers world set_sessions
         set_world].
    by rewrite Hs, Hp.
Qed.

(** ** Registration *)

Lemma localpart_is_invalid_true (o : option string) :
  localpart_is_invalid env o = true
  <-> o = None \/ o = Some ""%string
      \/ exists l, o = Some l /\ contains_invalid_mxid_characters env l = true.
Proof.
  destruct o as [l|]; simpl; [|by intuition].
  unfold str_truthy. destruct (String.eqb_spec l "") as [->|Hne]; simpl.
  - by intuition.
  - split.
    + intros Hc. right. right. by exists l.
    + intros [|[[= ->]|(l' & [= ->] & Hc)]]; done.
Qed.

Lemma register_mapped_user_invalid a p r ua ip s :
  localpart_is_invalid env (localpart a) = true ->
  _register_mapped_user env a p r ua ip s
  = (Raise (MappingException
              ("localpart is invalid: " +:+ format_opt (localpart a)) None),
     s).
Proof. intros Hinv. unfold _register_mapped_user. by rewrite Hinv. Qed.

Lemma register_mapped_user_valid a p r ua ip s :
  localpart_is_invalid env (localpart a) = false ->
  _register_mapped_user env a p r ua ip s
  = let lp := default ""%string (localpart a) in
    match register_user env lp (display_name a) (emails a) [(ua, ip)]
            (world s) with
    | (Raise e, w1) =>
        (Raise e,
         set_world w1
           (log (EvRegisterUser lp (display_name a) (emails a) [(ua, ip)]) s))
    | (Ok user_id, w1) =>
        let s1 :=
          set_world w1
            (log (EvRegisterUser lp (display_name a) (emails a) [(ua, ip)]) s)
        in
        match record_user_external_id env p r user_id w1 with
        | (Raise e, w2) =>
            (Raise e, set_world w2 (log (EvRecordUserExternalId p r user_id) s1))
        | (Ok _, w2) =>
            (Ok user_id,
             set_world w2 (log (EvRecordUserExternalId p r user_id) s1))
        end
    end.
Proof.
  intros Hinv. unfold _register_mapped_user. rewrite Hinv.
  unfold bind, call, ret. cbv zeta.
  destruct (register_user env _ _ _ _ (world s)) as [[uid|e] w1]; [|done].
  cbn [world set_world log].
  by destruct (record_user_external_id env p r uid w1) as [[[]|e] w2].
Qed.

(** C4: when the localpart is absent, empty, or holds an invalid
    character, [_register_mapped_user] raises a [MappingException] and
    leaves the state as it found it: no account is created, no link
    written.  When the localpart passes and [register_user] returns
    [user_id], the link from the external id to [user_id] is written next,
    in the world the registration left, and [user_id] is returned. *)
Theorem register_mapped_user_validates a p r ua ip s :
  (localpart a = None \/ localpart a = Some ""%string
   \/ (exists l, localpart a = Some l
                /\ contains_invalid_mxid_characters env l = true) ->
   exists msg,
     _register_mapped_user env a p r ua ip s
     = (Raise (MappingException msg None), s))
  /\ (forall lp user_id w1 w2,
        localpart a = Some lp -> lp <> ""%string ->
        contains_invalid_mxid_characters env lp = false ->
        register_user env lp (display_name a) (emails a) [(ua, ip)] (world s)
        = (Ok user_id, w1) ->
        record_user_external_id env p r user_id w1 = (Ok tt, w2) ->
        exists s',
          _register_mapped_user env a p r ua ip s = (Ok user_id, s')
          /\ world s' = w2
          /\ calls s'
             = calls s
               ++ [EvRegisterUser lp (display_name a) (emails a) [(ua, ip)];
                   EvRecordUserExternalId p r user_id]
          /\ _username_mapping_sessions s' = _username_mapping_sessions s).
Proof.
  split.
  - intros Hinv%localpart_is_invalid_true. eexists.
    by apply register_mapped_user_invalid.
  - intros lp user_id w1 w2 Hlp Hne Hc Hreg Hrec.
    assert (localpart_is_invalid env (localpart a) = false) as Hvalid.
    { destruct (localpart_is_invalid env (localpart a)) eqn:Hinv; [|done].
      apply localpart_is_invalid_true in Hinv
        as [Hn|[He|(l & Hl & Hc')]]; congruence. }
    rewrite (register_mapped_user_valid _ _ _ _ _ _ Hvalid), Hlp.
    cbn [default from_option id]. cbv zeta. rewrite Hreg, Hrec.
    eexists. split; [done|]. cbn [world calls set_world log
      _username_mapping_sessions]. by rewrite <- app_assoc.
Qed.

(** ** Dispatch to the identity providers *)

Lemma size_one_singleton (m : gmap string (SsoIdentityProvider W)) :
  size m = 1%nat -> exists k ap, m = {[k := ap]}.
Proof.
  intros Hsize. rewrite <- length_map_to_list in Hsize.
  destruct (map_to_list m) as [|[k ap] [|kv l]] eqn:Hl; try done.
  exists k, ap. rewrite <- (list_to_map_to_list m), Hl. done.
Qed.

(** C6: without a registered provider [handle_redirect_request] raises a
    [SynapseError] of status 400, "Homeserver not configured for SSO.";
    with exactly one it returns what the [handle_redirect_request] of that
    provider returns for the request and the client redirect URL; with
    more than one it returns the path of the provider picker, with the
    client redirect URL urlencoded as the query parameter [redirectUrl]. *)
Theorem handle_redirect_request_dispatch request url s :
  (size (_identity_providers s) = 0%nat ->
   handle_redirect_request env request url s
   = (Raise (SynapseError 400 "Homeserver not configured for SSO."
               (Some UNRECOGNIZED)), s))
  /\ (size (_identity_providers s) = 1%nat ->
      exists k ap,
        _identity_providers s = {[k := ap]}
        /\ handle_redirect_request env request url s
           = let (res, w') :=
               idp_handle_redirect_request ap request url (world s) in
             (res, set_world w' (log (EvIdpRedirect (idp_id ap) url) s)))
  /\ ((1 < size (_identity_providers s))%nat ->
      handle_redirect_request env request url s
      = (Ok ("/_synapse/client/pick_idp?"
               +:+ urlencode env [("redirectUrl"%string, url)]), s)).
Proof.
  unfold handle_redirect_request, bind, gets.
  split; [|split]; intros Hsize.
  - by rewrite Hsize.
  - destruct (size_one_singleton _ Hsize) as (k & ap & Hm).
    exists k, ap. split; [done|]. rewrite Hsize. cbn [Nat.eqb].
    rewrite Hm, map_to_list_singleton. done.
  - destruct (size (_identity_providers s)) as [|[|n]] eqn:Hn; try lia.
    done.
Qed.

(** ** Completing a login *)

Lemma str_truthy_ne (u : string) : u <> ""%string -> str_truthy u = true.
Proof.
  intros Hne. unfold str_truthy. by destruct (String.eqb_spec u "").
Qed.

(** C10: when the store links the external id to the user [user_id],
    [complete_sso_login_request] reads that link and hands [user_id] to
    [complete_sso_login], in the world it started in and with the session
    table it started with.  The grandfathering callback, the mapper,
    [register_user] and [record_user_external_id] are not called: the only
    calls are the read of the link and the completion of the login. *)
Theorem complete_sso_login_request_known_user
    p r request url mapper grandfather extra user_id s
  (Hlink : get_user_by_external_id env p r (world s) = Ok (Some user_id))
  (Hid : user_id <> ""%string) :
  let s1 := log (EvGetUserByExternalId p r) s in
  let (res, w') := complete_sso_login env user_id request url extra (world s) in
  let s2 := set_world w' (log (EvCompleteSsoLogin user_id url extra) s1) in
  find_or_register_user env p r request url mapper grandfather extra s
  = (Ok user_id, s1)
  /\ complete_sso_login_request env p r request url mapper grandfather extra s
     = (res, s2)
  /\ _username_mapping_sessions s2 = _username_mapping_sessions s
  /\ calls s2
     = calls s
       ++ [EvGetUserByExternalId p r; EvCompleteSsoLogin user_id url extra].
Proof.
  intros s1.
  assert (find_or_register_user env p r request url mapper grandfather extra s
          = (Ok user_id, s1)) as Hfind.
  { unfold find_or_register_user, get_sso_user_by_remote_user_id.
    unfold bind, query, ret. rewrite Hlink.
    cbn [opt_truthy]. rewrite (str_truthy_ne _ Hid). cbn [negb opt_truthy].
    by rewrite (str_truthy_ne _ Hid). }
  unfold complete_sso_login_request, bind. rewrite Hfind. unfold call.
  subst s1. cbn [world log].
  destruct (complete_sso_login env user_id request url extra (world s))
    as [res w'].
  repeat split; try done. cbn [calls set_world log].
  by rewrite <- app_assoc.
Qed.

(** The path of a user the store does not know and the grandfathering
    callback does not find, up to the attribute mapper. *)
Lemma find_or_register_user_new
    p r request url mapper grandfather extra s o g w1 :
  get_user_by_external_id env p r (world s) = Ok o ->
  opt_truthy o = false ->
  grandfather (world s) = (Ok g, w1) ->
  opt_truthy g = false ->
  find_or_register_user env p r request url mapper grandfather extra s
  = (attributes <- _call_attribute_mapper env mapper ;;
     match localpart attributes with
     | None =>
         never <- _redirect_to_username_picker env p r attributes url extra ;;
         match never : Empty_set with end
     | Some _ => ret tt
     end ;;;
     _register_mapped_user env attributes p r (get_user_agent request "")
       (getClientIP request))
      (set_world w1
         (log EvGrandfather (log (EvGetUserByExternalId p r) s))).
Proof.
  intros Hlink Hnolink Hgrand Hnouser.
  unfold find_or_register_user, get_sso_user_by_remote_user_id.
  unfold bind at 1 2 3, query. rewrite Hlink.
  assert (forall (x : option string),
            (match x with Some u => ret (Some u) | None => ret None end)
            = ret (W := W) (JsonDict := JsonDict) x) as Hret
    by (by intros [u|]).
  rewrite Hret. unfold ret at 1. rewrite Hnolink. cbn [negb].
  unfold bind at 1 2, call at 1. cbn [world log]. rewrite Hgrand.
  rewrite Hnouser. unfold ret at 1 2. by rewrite Hnouser.
Qed.

(** Colliding attempts create no account and write no link. *)
Lemma colliding_attempts_log mapper k : forall i s s',
  colliding_attempts env mapper k i s = Some s' ->
  exists new,
    calls s' = calls s ++ new
    /\ Forall (fun ev => is_registration ev = false) new.
Proof.
  induction k as [|k IH]; intros i s s' Hk; simpl in Hk.
  - inversion Hk; subst. exists []. by rewrite app_nil_r.
  - destruct (mapper i (world s)) as [[a|e] w'] eqn:Hm; [|done].
    destruct (opt_truthy (localpart a)) eqn:Hlp; [|done].
    destruct (get_users_by_id_case_insensitive env _ w') as [[|u us]|e]
      eqn:Hq; [done| |done].
    apply IH in Hk as (new & Hc & Hnew). cbn [calls set_world log] in Hc.
    eexists. split.
    + rewrite Hc, <- !app_assoc. reflexivity.
    + by repeat constructor.
Qed.

(** C3 (as the code has it): let the store have no link for the external
    id and the grandfathering callback find no user, and let the mapper,
    after [i] colliding attempts, return the attributes [a].  If the
    localpart of [a] is [None], [complete_sso_login_request] stores a new
    [UsernameMappingSession] under a fresh random id and raises the
    redirect to the username picker, with the id in the cookie; neither
    [register_user] nor [record_user_external_id] is called.  If the
    localpart of [a] is the empty string, no session is stored and no
    redirect raised: the request fails with the [MappingException] of
    [_register_mapped_user], again without a call to [register_user]. *)
Theorem complete_sso_login_request_asks_for_username
    p r request url mapper grandfather extra s o g w1 i si a w2
  (Hlink : get_user_by_external_id env p r (world s) = Ok o)
  (Hnolink : opt_truthy o = false)
  (Hgrand : grandfather (world s) = (Ok g, w1))
  (Hnouser : opt_truthy g = false)
  (Hi : (i < _MAP_USERNAME_RETRIES)%nat)
  (Hbefore :
     colliding_attempts env mapper i 0
       (set_world w1 (log EvGrandfather (log (EvGetUserByExternalId p r) s)))
     = Some si)
  (Hmap : mapper i (world si) = (Ok a, w2)) :
  (localpart a = None ->
   forall sid w3,
     random_string env 16 w2 = (sid, w3) ->
     exists s',
       complete_sso_login_request env p r request url mapper grandfather
         extra s
       = (Raise (RedirectException "/_synapse/client/pick_username"
                   [("username_mapping_session=" +:+ sid
                       +:+ "; path=/")%string]),
          s')
       /\ _username_mapping_sessions s'
          = <[sid :=
                {| auth_provider_id := p;
                   remote_user_id := r;
                   session_display_name := display_name a;
                   session_emails := emails a;
                   extra_login_attributes := extra;
                   client_redirect_url := url;
                   expiry_time_ms := time_msec env w3 + 15 * 60 * 1000 |}]>
              (_username_mapping_sessions s)
       /\ world s' = w3
       /\ exists new,
            calls s' = calls s ++ new
            /\ Forall (fun ev => is_registration ev = false) new)
  /\ (localpart a = Some ""%string ->
      exists s',
        complete_sso_login_request env p r request url mapper grandfather
          extra s
        = (Raise (MappingException "localpart is invalid: " None), s')
        /\ _username_mapping_sessions s' = _username_mapping_sessions s
        /\ world s' = w2
        /\ exists new,
             calls s' = calls s ++ new
             /\ Forall (fun ev => is_registration ev = false) new).
Proof.
  set (s1 := set_world w1
               (log EvGrandfather (log (EvGetUserByExternalId p r) s))) in *.
  set (s2 := set_world w2 (log (EvMapper i) si)).
  pose proof (find_or_register_user_new p r request url mapper grandfather
                extra s o g w1 Hlink Hnolink Hgrand Hnouser) as Hfind.
  fold s1 in Hfind.
  assert (localpart a = None \/ localpart a = Some ""%string ->
          _call_attribute_mapper env mapper s1 = (Ok a, s2)) as Hloop.
  { intros Hlp%opt_truthy_false.
    rewrite (call_attribute_mapper_after mapper i s1 si) by (done || lia).
    replace (_MAP_USERNAME_RETRIES - i)%nat
      with (S (_MAP_USERNAME_RETRIES - S i)) by lia.
    rewrite loop_unfold, Hmap. cbv zeta. by rewrite Hlp. }
  destruct (colliding_attempts_calls mapper i 0 s1 si Hbefore)
    as (_ & Hsessions & _).
  destruct (colliding_attempts_log mapper i 0 s1 si Hbefore)
    as (new & Hnew & Hfree).
  assert (exists new2,
            calls s2 = calls s ++ new2
            /\ Forall (fun ev => is_registration ev = false) new2)
    as (new2 & Hcalls & Hfree2).
  { exists ([EvGetUserByExternalId p r; EvGrandfather] ++ new ++ [EvMapper i]).
    split.
    - subst s2. cbn [calls set_world log]. rewrite Hnew. subst s1.
      cbn [calls set_world log]. by rewrite <- !app_assoc.
    - apply Forall_app. split; [by repeat constructor|].
      apply Forall_app. split; [done|by repeat constructor]. }
  split.
  - intros Hlp sid w3 Hrand.
    pose proof (redirect_to_username_picker_run p r a url extra s2 sid w3
                  Hrand) as Hpick.
    eexists. split.
    + unfold complete_sso_login_request. unfold bind at 1. rewrite Hfind.
      unfold bind at 1. rewrite Hloop by (by left). rewrite Hlp.
      unfold bind at 1 2. rewrite Hpick. reflexivity.
    + cbn [_username_mapping_sessions world calls set_sessions set_world log].
      rewrite Hcalls. subst s2.
      cbn [_username_mapping_sessions set_world log]. rewrite Hsessions.
      repeat split. exists (new2 ++ [EvRandomString 16]). split.
      * by rewrite <- app_assoc.
      * apply Forall_app. split; [done|by repeat constructor].
  - intros Hlp. exists s2. split.
    + unfold complete_sso_login_request. unfold bind at 1. rewrite Hfind.
      unfold bind at 1. rewrite Hloop by (by right). rewrite Hlp.
      unfold bind at 1, ret at 1.
      rewrite register_mapped_user_invalid; rewrite Hlp; done.
    + subst s2. cbn [_username_mapping_sessions world set_world log].
      rewrite Hsessions. repeat split. by exists new2.
Qed.

(** ** Submitting the chosen username *)

(** C9: let the session be in the table and not expired.  The registration
    that [handle_submit_username_request] asks for leaves the session
    table alone and adds no cookie.  If it raises, for an invalid
    localpart or because [register_user] raised (a user id that is already
    in use comes back as whatever [register_user] raised for it, for
    instance the [SynapseError] of code [USER_IN_USE]), the request raises
    the same exception and stops in the state the registration left: the
    session is still in the table, unchanged.  If it returns, the session
    is deleted, then the cookie is cleared, then the login is completed. *)
Theorem handle_submit_username_request_keeps_session
    request lp sid session s
  (Hsid : _username_mapping_sessions s !! sid = Some session)
  (Hlive : time_msec env (world s) < expiry_time_ms session) :
  let reg := submit_registration env request lp session (swept env s) in
  _username_mapping_sessions reg.2 = _username_mapping_sessions (swept env s)
  /\ _username_mapping_sessions reg.2 !! sid = Some session
  /\ (exists new,
        calls reg.2 = calls s ++ new
        /\ Forall (fun ev => is_add_cookie ev = false) new)
  /\ match reg.1 with
     | Raise e =>
         handle_submit_username_request env request lp sid s = (Raise e, reg.2)
     | Ok user_id =>
         handle_submit_username_request env request lp sid s
         = call (EvCompleteSsoLogin user_id (client_redirect_url session)
                   (extra_login_attributes session))
             (complete_sso_login env user_id request
                (client_redirect_url session) (extra_login_attributes session))
             (log (EvAddCookie USERNAME_MAPPING_SESSION_COOKIE_NAME ""
                     "Thu, 01 Jan 1970 00:00:00 GMT" "/")
                (set_sessions
                   (delete sid (_username_mapping_sessions reg.2)) reg.2))
         /\ _username_mapping_sessions
              (handle_submit_username_request env request lp sid s).2 !! sid
            = None
     end
  /\ (localpart_is_invalid env (Some lp) = true ->
      reg = (Raise (MappingException ("localpart is invalid: " +:+ lp) None),
             swept env s))
  /\ (localpart_is_invalid env (Some lp) = false ->
      forall e w1,
        register_user env lp (session_display_name session)
          (session_emails session)
          [(get_user_agent request "", getClientIP request)] (world s)
        = (Raise e, w1) ->
        reg.1 = Raise e).
Proof.
  intros reg.
  assert (_username_mapping_sessions (swept env s) !! sid = Some session)
    as Hfound.
  { unfold swept. cbn [_username_mapping_sessions set_sessions].
    by rewrite live_sessions_lookup, Hsid, decide_False by lia. }
  assert (_username_mapping_sessions reg.2
          = _username_mapping_sessions (swept env s)
          /\ exists new,
               calls reg.2 = calls s ++ new
               /\ Forall (fun ev => is_add_cookie ev = false) new)
    as [Hkeep Hcalls].
  { subst reg. unfold submit_registration.
    destruct (localpart_is_invalid env
                (localpart (chosen_attributes lp session))) eqn:Hinv.
    - rewrite register_mapped_user_invalid by done. split; [done|].
      exists []. by rewrite app_nil_r.
    - rewrite register_mapped_user_valid by done. cbv zeta.
      destruct (register_user env _ _ _ _ _) as [[uid|e] w1].
      + destruct (record_user_external_id env _ _ uid w1) as [[[]|e] w2];
          (split; [done|]); eexists;
          (split; [cbn [snd calls set_world log swept set_sessions];
                   rewrite <- app_assoc; reflexivity
                  |by repeat constructor]).
      + split; [done|]. eexists.
        split; [cbn [snd calls set_world log swept set_sessions]; reflexivity
               |by repeat constructor]. }
  split; [done|]. split; [by rewrite Hkeep|]. split; [done|].
  split; [|split].
  - assert (handle_submit_username_request env request lp sid s
            = match reg.1 with
              | Ok uid => submit_completion env request sid session uid reg.2
              | Raise e => (Raise e, reg.2)
              end) as Hrun.
    { rewrite handle_submit_username_request_run, Hfound.
      unfold bind at 1. fold reg. by destruct reg as [[uid|e] s']. }
    rewrite Hrun. clearbody reg. destruct reg as [[uid|e] s']; [|done].
    cbn [fst snd]. unfold submit_completion, bind, modify.
    split; [done|]. unfold call. cbn [world set_sessions log].
    destruct (complete_sso_login env uid request
                (client_redirect_url session)
                (extra_login_attributes session) (world s')) as [res w'].
    cbn [snd _username_mapping_sessions set_world log set_sessions].
    apply lookup_delete_eq.
  - intros Hinv. subst reg. unfold submit_registration.
    by rewrite register_mapped_user_invalid.
  - intros Hvalid e w1 Hreg. subst reg. unfold submit_registration.
    rewrite register_mapped_user_valid by done.
    cbn [chosen_attributes localpart display_name emails default from_option
         id world swept set_sessions]. cbv zeta.
    by rewrite Hreg.
Qed.

End Properties.

(** * The properties at work in the small deployment *)

Import Deployment.

Local Open Scope list_scope.

Lemma call_attribute_mapper_gives_up_witness :
  exists s',
    _call_attribute_mapper env mapper_bob (initial w_bob)
    = (Raise (MappingException
                "Unable to generate a Matrix ID from the SSO response" None),
       s')
    /\ mapper_attempts (calls s')
       = mapper_attempts (calls (initial w_bob)) ++ seq 0 1000
    /\ length (mapper_attempts (calls s'))
       = (length (mapper_attempts (calls (initial w_bob))) + 1000)%nat
    /\ _username_mapping_sessions s'
       = _username_mapping_sessions (initial w_bob).
Proof.
  apply (call_attribute_mapper_gives_up env mapper_bob (fun w => w = w_bob)).
  - reflexivity.
  - intros i w ->.
    exists (just (Some "bob"%string)), w_bob, ("@Bob:example.org", ""), [].
    repeat split.
Defined.

(** Collision then success: [bob] is taken, [bob2] is free, and the loop
    returns the attributes of the second attempt. *)
Lemma call_attribute_mapper_stops_witness :
  _call_attribute_mapper env mapper_bob_then_bob2 (initial w_bob)
  = (Ok (just (Some "bob2"%string)),
     {| _username_mapping_sessions := ∅;
        _identity_providers := ∅;
        world := w_bob;
        calls := [EvMapper 0;
                  EvGetUsersByIdCaseInsensitive "@bob:example.org";
                  EvMapper 1;
                  EvGetUsersByIdCaseInsensitive "@bob2:example.org"] |}).
Proof.
  refine (proj1 (proj2
    (call_attribute_mapper_stops env mapper_bob_then_bob2 (initial w_bob) 1
       (log (EvGetUsersByIdCaseInsensitive "@bob:example.org")
          (set_world w_bob (log (EvMapper 0) (initial w_bob))))
       (just (Some "bob2"%string)) w_bob _ _ _)) _ _).
  - unfold _MAP_USERNAME_RETRIES. lia.
  - reflexivity.
  - reflexivity.
  - reflexivity.
  - reflexivity.
Defined.

Lemma call_attribute_mapper_raises_witness :
  exists r,
    _call_attribute_mapper env (mapper_raising (OtherException "KeyError: 'uid'"))
      (initial w_bob)
    = (Raise r, set_world w_bob (log (EvMapper 0) (initial w_bob)))
    /\ (r = MappingException
              "Could not extract user attributes from SSO response."
              (Some (OtherException "KeyError: 'uid'"))
        /\ exn_msg r
           = "Could not extract user attributes from SSO response."%string).
Proof.
  apply (call_attribute_mapper_raises env
           (mapper_raising (OtherException "KeyError: 'uid'")) (initial w_bob)
           0 (initial w_bob) (OtherException "KeyError: 'uid'") w_bob).
  - unfold _MAP_USERNAME_RETRIES. lia.
  - reflexivity.
  - reflexivity.
Defined.

(** A mapper that returns the empty string is not sent to the picker: no
    session is stored and the request fails as an invalid localpart. *)
Lemma empty_localpart_is_not_redirected :
  let run :=
    complete_sso_login_request env "oidc" "xyz" request "https://client/"
      mapper_empty no_grandfather None (initial w_bob) in
  get_user_by_external_id env "oidc" "xyz" w_bob = Ok None
  /\ no_grandfather w_bob = (Ok None, w_bob)
  /\ (mapper_empty 0 w_bob).1 = Ok (just (Some ""%string))
  /\ localpart (just (Some ""%string)) = Some ""%string
  /\ run.1 = Raise (MappingException "localpart is invalid: " None)
  /\ (forall location cookies,
        run.1 <> Raise (RedirectException location cookies))
  /\ _username_mapping_sessions run.2 = ∅
  /\ calls run.2
     = [EvGetUserByExternalId "oidc" "xyz"; EvGrandfather; EvMapper 0].
Proof.
  cbv zeta. repeat split; try reflexivity.
  intros location cookies. vm_compute. discriminate.
Qed.

(** New user needs picker: the mapper picks no localpart, a session is
    stored and the redirect to the picker raised. *)
Lemma complete_sso_login_request_asks_for_username_witness :
  exists s',
    complete_sso_login_request env "oidc" "xyz" request "https://client/"
      mapper_none no_grandfather None (initial w_bob)
    = (Raise (RedirectException "/_synapse/client/pick_username"
                ["username_mapping_session=abcdefghijklmnop; path=/"%string]),
       s')
    /\ _username_mapping_sessions s'
       = <["abcdefghijklmnop"%string := picker_session]> ∅
    /\ world s'
       = {| clock_ms := 1000000; accounts := ["@Bob:example.org"%string];
            links := []; tokens := [] |}
    /\ exists new,
         calls s' = [] ++ new
         /\ Forall (fun ev => is_registration ev = false) new.
Proof.
  refine (proj1
    (complete_sso_login_request_asks_for_username env "oidc" "xyz" request
       "https://client/" mapper_none no_grandfather None (initial w_bob)
       None None w_bob 0
       (set_world w_bob
          (log EvGrandfather
             (log (EvGetUserByExternalId "oidc" "xyz") (initial w_bob))))
       (just None) w_bob _ _ _ _ _ _ _) _
    "abcdefghijklmnop"%string
    {| clock_ms := 1000000; accounts := ["@Bob:example.org"%string];
       links := []; tokens := [] |} _);
    try reflexivity.
  unfold _MAP_USERNAME_RETRIES. lia.
Defined.

(** Direct link hit: [("oidc", "abc")] is linked to [@alice:example.org];
    the login completes for that user, with two calls. *)
Lemma complete_sso_login_request_known_user_witness :
  find_or_register_user env "oidc" "abc" request "https://client/"
    mapper_bob no_grandfather None (initial w_alice)
  = (Ok "@alice:example.org"%string,
     log (EvGetUserByExternalId "oidc" "abc") (initial w_alice))
  /\ complete_sso_login_request env "oidc" "abc" request "https://client/"
       mapper_bob no_grandfather None (initial w_alice)
     = (Ok tt,
        {| _username_mapping_sessions := ∅;
           _identity_providers := ∅;
           world := w_alice;
           calls := [EvGetUserByExternalId "oidc" "abc";
                     EvCompleteSsoLogin "@alice:example.org"
                       "https://client/" None] |})
  /\ _username_mapping_sessions
       (set_world w_alice
          (log (EvCompleteSsoLogin "@alice:example.org" "https://client/" None)
             (log (EvGetUserByExternalId "oidc" "abc") (initial w_alice))))
     = ∅
  /\ calls
       (set_world w_alice
          (log (EvCompleteSsoLogin "@alice:example.org" "https://client/" None)
             (log (EvGetUserByExternalId "oidc" "abc") (initial w_alice))))
     = [EvGetUserByExternalId "oidc" "abc";
        EvCompleteSsoLogin "@alice:example.org" "https://client/" None].
Proof.
  apply (complete_sso_login_request_known_user env "oidc" "abc" request
           "https://client/" mapper_bob no_grandfather None
           "@alice:example.org" (initial w_alice)).
  - reflexivity.
  - discriminate.
Defined.

(** One millisecond before the session expires, [carol] is reported as
    available; three checks before a submission do not change it. *)
Lemma check_username_availability_reads_only_witness :
  (exists b,
     check_username_availability env "carol" "abcdefghijklmnop"
       (at_time 1899999 awaiting_username)
     = (Ok b,
        log (EvGetUsersByIdCaseInsensitive
               (UserID_to_string "carol" (server_name env)))
          (swept env (at_time 1899999 awaiting_username)))
     /\ (b = true <-> @nil (string * string) = []))
  /\ (let cs :=
        [("carol"%string, "abcdefghijklmnop"%string, set_clock 1500000 w_bob);
         ("bob"%string, "abcdefghijklmnop"%string, set_clock 1600000 w_bob);
         ("carol"%string, "nosuchsession"%string, set_clock 1899999 w_bob)] in
      let with_checks :=
        handle_submit_username_request env request "carol" "abcdefghijklmnop"
          (set_world (set_clock 1899999 w_bob)
             (after_checks env cs (at_time 1899999 awaiting_username))) in
      let without_checks :=
        handle_submit_username_request env request "carol" "abcdefghijklmnop"
          (set_world (set_clock 1899999 w_bob)
             (at_time 1899999 awaiting_username)) in
      with_checks.1 = without_checks.1
      /\ same_data with_checks.2 without_checks.2).
Proof.
  pose proof (check_username_availability_reads_only env
                (at_time 1899999 awaiting_username) "abcdefghijklmnop"
                picker_session "carol" []
                eq_refl eq_refl eq_refl eq_refl) as (Hanswer & _ & Hmany).
  split; [exact Hanswer|].
  apply Hmany. repeat constructor; cbn; lia.
Defined.

(** [bob] is taken (as [@Bob:example.org]): the submission raises what
    [register_user] raised and the session stays. *)
Lemma handle_submit_username_request_keeps_session_witness :
  let s := at_time 1500000 awaiting_username in
  let reg := submit_registration env request "bob" picker_session (swept env s) in
  _username_mapping_sessions reg.2 = _username_mapping_sessions (swept env s)
  /\ _username_mapping_sessions reg.2 !! "abcdefghijklmnop"%string
     = Some picker_session
  /\ (exists new,
        calls reg.2 = calls s ++ new
        /\ Forall (fun ev => is_add_cookie ev = false) new)
  /\ handle_submit_username_request env request "bob" "abcdefghijklmnop" s
     = (Raise (SynapseError 400 "User ID already taken." (Some USER_IN_USE)),
        reg.2).
Proof.
  cbv zeta.
  pose proof (handle_submit_username_request_keeps_session env request "bob"
                "abcdefghijklmnop" picker_session
                (at_time 1500000 awaiting_username) eq_refl eq_refl)
    as (Hkeep & Hsid & Hcalls & Hrun & _).
  split; [exact Hkeep|]. split; [exact Hsid|]. split; [exact Hcalls|].
  exact Hrun.
Defined.

(** ** The scenarios of the design document *)

(** Bounded retry: the thousandth collision ends the loop. *)
Example bounded_retry :
  (_call_attribute_mapper env mapper_bob (initial w_bob)).1
  = Raise (MappingException
             "Unable to generate a Matrix ID from the SSO response" None)
  /\ mapper_attempts (calls (_call_attribute_mapper env mapper_bob
                               (initial w_bob)).2)
     = seq 0 1000.
Proof. split; vm_compute; reflexivity. Qed.

(** Collision then success, up to the registration of [@bob2:example.org]. *)
Example collision_then_success :
  let run :=
    complete_sso_login_request env "oidc" "xyz" request "https://client/"
      mapper_bob_then_bob2 no_grandfather None (initial w_bob) in
  run.1 = Ok tt
  /\ accounts (world run.2) = ["@Bob:example.org"; "@bob2:example.org"]%string
  /\ links (world run.2) = [("oidc", "xyz", "@bob2:example.org")]%string
  /\ mapper_attempts (calls run.2) = [0; 1]%nat.
Proof. cbv zeta. repeat split; vm_compute; reflexivity. Qed.

(** Session expiry boundary: found at [T + 15 min - 1 ms], unknown at
    [T + 15 min]. *)
Example session_expiry_boundary :
  (check_username_availability env "carol" "abcdefghijklmnop"
     (at_time (1000000 + 15 * 60 * 1000 - 1) awaiting_username)).1
  = Ok true
  /\ (check_username_availability env "carol" "abcdefghijklmnop"
        (at_time (1000000 + 15 * 60 * 1000) awaiting_username)).1
     = Raise (SynapseError 400 "unknown session" None)
  /\ (handle_submit_username_request env request "carol" "abcdefghijklmnop"
        (at_time (1000000 + 15 * 60 * 1000 - 1) awaiting_username)).1
     = Ok tt
  /\ (handle_submit_username_request env request "carol" "abcdefghijklmnop"
        (at_time (1000000 + 15 * 60 * 1000) awaiting_username)).1
     = Raise (SynapseError 400 "unknown session" None).
Proof. repeat split; vm_compute; reflexivity. Qed.

(** New user needs picker, second half: the submission of a free
    localpart registers the user, records the link, deletes the session
    and clears the cookie. *)
Example submit_free_localpart :
  let run :=
    handle_submit_username_request env request "carol" "abcdefghijklmnop"
      (at_time 1500000 awaiting_username) in
  run.1 = Ok tt
  /\ _username_mapping_sessions run.2 = ∅
  /\ accounts (world run.2) = ["@Bob:example.org"; "@carol:example.org"]%string
  /\ links (world run.2) = [("oidc", "xyz", "@carol:example.org")]%string
  /\ calls run.2
     = calls awaiting_username
       ++ [EvRegisterUser "carol" (Some "Bob"%string) ["bob@example.org"%string]
             [("Mozilla/5.0"%string, "10.0.0.1"%string)];
           EvRecordUserExternalId "oidc" "xyz" "@carol:example.org";
           EvAddCookie "username_mapping_session" ""
             "Thu, 01 Jan 1970 00:00:00 GMT" "/";
           EvCompleteSsoLogin "@carol:example.org" "https://client/" None].
Proof. cbv zeta. repeat split; vm_compute; reflexivity. Qed.

(** A localpart with an invalid character is refused before any call. *)
Example register_invalid_localpart :
  _register_mapped_user env (just (Some "Bob!"%string)) "oidc" "xyz"
    "Mozilla/5.0" "10.0.0.1" (initial w_bob)
  = (Raise (MappingException "localpart is invalid: Bob!" None),
     initial w_bob)
  /\ _register_mapped_user env (just None) "oidc" "xyz"
       "Mozilla/5.0" "10.0.0.1" (initial w_bob)
     = (Raise (MappingException "localpart is invalid: None" None),
        initial w_bob).
Proof. split; reflexivity. Qed.

(** No provider, one provider, two providers. *)
Example redirect_dispatch :
  (handle_redirect_request env request "https://client/"
     (with_providers [] (initial w_bob))).1
  = Raise (SynapseError 400 "Homeserver not configured for SSO."
             (Some UNRECOGNIZED))
  /\ (handle_redirect_request env request "https://client/"
        (with_providers ["oidc"%string] (initial w_bob))).1
     = Ok "https://oidc.example.com/auth?next=https://client/"%string
  /\ (handle_redirect_request env request "https://client/"
        (with_providers ["oidc"; "saml"]%string (initial w_bob))).1
     = Ok "/_synapse/client/pick_idp?redirectUrl=https%3A%2F%2Fclient%2F"%string.
Proof. repeat split; vm_compute; reflexivity. Qed.

(** * Further properties of the handler *)

Section MoreProperties.

Context {W JsonDict : Type}.
Variable env : Env W JsonDict.

Implicit Types (s : State W JsonDict) (w : W) (a : UserAttributes).
Implicit Types (mapper : nat -> W -> result UserAttributes * W).
Implicit Types (grandfather : W -> result (option string) * W).
Implicit Types (request : SynapseRequest).

(** ** The attribute mapping loop, whatever the mapper does *)

Lemma attribute_mapper_loop_calls mapper n : forall i s,
  exists k new,
    (k <= n)%nat /\ (n <> 0%nat -> k <> 0%nat)
    /\ calls (attribute_mapper_loop env mapper n i s).2 = calls s ++ new
    /\ mapper_attempts new = seq i k
    /\ Forall (fun ev => is_registration ev = false) new
    /\ _username_mapping_sessions (attribute_mapper_loop env mapper n i s).2
       = _username_mapping_sessions s
    /\ _identity_providers (attribute_mapper_loop env mapper n i s).2
       = _identity_providers s.
Proof.
  induction n as [|n IH]; intros i s.
  - exists 0%nat, []. cbn. rewrite app_nil_r. by repeat split.
  - rewrite loop_unfold.
    destruct (mapper i (world s)) as [[a|e] w'].
    2:{ exists 1%nat, [EvMapper i]. cbn. repeat split; try done; try lia.
        by repeat constructor. }
    cbv zeta. destruct (opt_truthy (localpart a)).
    2:{ exists 1%nat, [EvMapper i]. cbn. repeat split; try done; try lia.
        by repeat constructor. }
    set (user_id :=
           UserID_to_string (default ""%string (localpart a)) (server_name env)).
    destruct (get_users_by_id_case_insensitive env user_id w')
      as [[|u us]|e].
    + exists 1%nat, [EvMapper i; EvGetUsersByIdCaseInsensitive user_id].
      cbn. rewrite <- app_assoc. repeat split; try done; try lia.
      by repeat constructor.
    + destruct (IH (S i)
                  (log (EvGetUsersByIdCaseInsensitive user_id)
                     (set_world w' (log (EvMapper i) s))))
        as (k & new & Hk & _ & Hcalls & Hatt & Hfree & Hs & Hp).
      exists (S k),
        ([EvMapper i; EvGetUsersByIdCaseInsensitive user_id] ++ new).
      rewrite Hcalls, Hs, Hp. cbn [calls set_world log
        _username_mapping_sessions _identity_providers].
      repeat split; try done; try lia.
      * by rewrite <- !app_assoc.
      * unfold mapper_attempts in *. rewrite omap_app, Hatt. done.
      * apply Forall_app. split; [by repeat constructor|done].
    + exists 1%nat, [EvMapper i; EvGetUsersByIdCaseInsensitive user_id].
      cbn. rewrite <- app_assoc. repeat split; try done; try lia.
      by repeat constructor.
Qed.

(** X1: whatever the mapper returns or raises, and whatever the store
    answers, [_call_attribute_mapper] calls the mapper at least once and at
    most 1000 times, for the attempts 0, 1, 2, ... in order; it creates no
    account, writes no link, and leaves the session table and the
    providers as they were. *)
Theorem call_attribute_mapper_bounded mapper s :
  exists k new,
    (1 <= k <= 1000)%nat
    /\ calls (_call_attribute_mapper env mapper s).2 = calls s ++ new
    /\ mapper_attempts new = seq 0 k
    /\ Forall (fun ev => is_registration ev = false) new
    /\ _username_mapping_sessions (_call_attribute_mapper env mapper s).2
       = _username_mapping_sessions s
    /\ _identity_providers (_call_attribute_mapper env mapper s).2
       = _identity_providers s.
Proof.
  destruct (attribute_mapper_loop_calls mapper _MAP_USERNAME_RETRIES 0 s)
    as (k & new & Hk & Hpos & H).
  exists k, new. unfold _MAP_USERNAME_RETRIES in *.
  split; [|exact H]. split; [|done].
  assert (k <> 0%nat) by (by apply Hpos). lia.
Qed.

Lemma attribute_mapper_loop_returns mapper n : forall i s a s',
  attribute_mapper_loop env mapper n i s = (Ok a, s') ->
  exists j w,
    (i <= j < i + n)%nat
    /\ mapper j w = (Ok a, world s')
    /\ (opt_truthy (localpart a) = false
        \/ get_users_by_id_case_insensitive env
             (UserID_to_string (default ""%string (localpart a))
                (server_name env)) (world s')
           = Ok []).
Proof.
  induction n as [|n IH]; intros i s a s' Hrun.
  - done.
  - rewrite loop_unfold in Hrun.
    destruct (mapper i (world s)) as [[a0|e] w'] eqn:Hm; [|done].
    cbv zeta in Hrun. destruct (opt_truthy (localpart a0)) eqn:Hlp.
    + destruct (get_users_by_id_case_insensitive env _ w') as [[|u us]|e]
        eqn:Hq; [| |done].
      * inversion Hrun; subst. exists i, (world s).
        split; [lia|]. split; [done|]. by right.
      * apply IH in Hrun as (j & w & Hj & Hmj & Hfree).
        exists j, w. split; [lia|done].
    + inversion Hrun; subst. exists i, (world s).
      split; [lia|]. split; [done|]. by left.
Qed.

(** X2: the attributes [_call_attribute_mapper] returns are the ones the
    mapper returned at one of the attempts 0 to 999, in the world the loop
    ends in; their localpart is absent or empty, or else the store, asked
    in that world, knows no user of the derived id. *)
Theorem call_attribute_mapper_returns_free mapper s a s'
  (Hrun : _call_attribute_mapper env mapper s = (Ok a, s')) :
  exists j w,
    (j < 1000)%nat
    /\ mapper j w = (Ok a, world s')
    /\ (localpart a = None \/ localpart a = Some ""%string
        \/ get_users_by_id_case_insensitive env
             (UserID_to_string (default ""%string (localpart a))
                (server_name env)) (world s')
           = Ok []).
Proof.
  apply attribute_mapper_loop_returns in Hrun as (j & w & Hj & Hm & Hfree).
  exists j, w. unfold _MAP_USERNAME_RETRIES in Hj. split; [lia|].
  split; [done|]. destruct Hfree as [[|]%opt_truthy_false|]; auto.
Qed.

(** X3: an exception of the store lookup is not wrapped: when the store
    raises [e] while the loop checks the localpart of attempt [i], the loop
    raises [e] itself, whatever its class, and the mapper is not called
    again. *)
Theorem call_attribute_mapper_store_failure mapper s i si a w' e
  (Hi : (i < _MAP_USERNAME_RETRIES)%nat)
  (Hbefore : colliding_attempts env mapper i 0 s = Some si)
  (Hmap : mapper i (world si) = (Ok a, w'))
  (Hlp : opt_truthy (localpart a) = true)
  (Hstore : get_users_by_id_case_insensitive env
              (UserID_to_string (default ""%string (localpart a))
                 (server_name env)) w'
            = Raise e) :
  _call_attribute_mapper env mapper s
  = (Raise e,
     log (EvGetUsersByIdCaseInsensitive
            (UserID_to_string (default ""%string (localpart a))
               (server_name env)))
       (set_world w' (log (EvMapper i) si))).
Proof.
  rewrite (call_attribute_mapper_after env mapper i s si) by (done || lia).
  replace (_MAP_USERNAME_RETRIES - i)%nat
    with (S (_MAP_USERNAME_RETRIES - S i)) by lia.
  rewrite loop_unfold, Hmap. cbv zeta. by rewrite Hlp, Hstore.
Qed.

(** ** Completing a login, path by path *)

(** [find_or_register_user] up to the point where a new user is needed. *)
Lemma find_or_register_user_cases
    p r request url mapper grandfather extra s :
  find_or_register_user env p r request url mapper grandfather extra s
  = let s0 := log (EvGetUserByExternalId p r) s in
    match get_user_by_external_id env p r (world s) with
    | Raise e => (Raise e, s0)
    | Ok o =>
        if opt_truthy o then (Ok (default ""%string o), s0)
        else
          match grandfather (world s) with
          | (Raise e, w1) => (Raise e, set_world w1 (log EvGrandfather s0))
          | (Ok g, w1) =>
              let s1 := set_world w1 (log EvGrandfather s0) in
              if opt_truthy g then
                let u := default ""%string g in
                match record_user_external_id env p r u w1 with
                | (Raise e, w2) =>
                    (Raise e,
                     set_world w2 (log (EvRecordUserExternalId p r u) s1))
                | (Ok _, w2) =>
                    (Ok u, set_world w2 (log (EvRecordUserExternalId p r u) s1))
                end
              else
                (attributes <- _call_attribute_mapper env mapper ;;
                 match localpart attributes with
                 | None =>
                     never <- _redirect_to_username_picker env p r attributes
                                url extra ;;
                     match never : Empty_set with end
                 | Some _ => ret tt
                 end ;;;
                 _register_mapped_user env attributes p r
                   (get_user_agent request "") (getClientIP request)) s1
          end
    end.
Proof.
  cbv zeta.
  destruct (get_user_by_external_id env p r (world s)) as [o|e] eqn:Hlink.
  2:{ unfold find_or_register_user, get_sso_user_by_remote_user_id.
      unfold bind at 1 2 3, query. by rewrite Hlink. }
  destruct (opt_truthy o) eqn:Ho.
  { unfold find_or_register_user, get_sso_user_by_remote_user_id.
    unfold bind at 1 2 3, query. rewrite Hlink.
    destruct o as [u|]; [|done]. unfold ret at 1. rewrite Ho. cbn [negb].
    unfold ret at 1. by rewrite Ho. }
  destruct (grandfather (world s)) as [[g|e] w1] eqn:Hgrand.
  2:{ unfold find_or_register_user, get_sso_user_by_remote_user_id.
      unfold bind at 1 2 3, query. rewrite Hlink.
      destruct o as [u|]; unfold ret at 1; rewrite Ho; cbn [negb];
        unfold bind at 1, call at 1; cbn [world log]; by rewrite Hgrand. }
  destruct (opt_truthy g) eqn:Hg.
  2:{ by apply (find_or_register_user_new env _ _ _ _ _ _ _ _ o g w1). }
  unfold find_or_register_user, get_sso_user_by_remote_user_id.
  unfold bind at 1 2 3, query. rewrite Hlink.
  assert (forall (x : option string),
            (match x with Some u => ret (Some u) | None => ret None end)
            = ret (W := W) (JsonDict := JsonDict) x) as Hret
    by (by intros [u|]).
  rewrite Hret. unfold ret at 1. rewrite Ho. cbn [negb].
  unfold bind at 1 2, call at 1. cbn [world log]. rewrite Hgrand, Hg.
  unfold call at 1. cbn [world set_world log].
  destruct (record_user_external_id env p r (default ""%string g) w1)
    as [[[]|e] w2]; [|done].
  unfold ret at 1. by rewrite Hg.
Qed.

(** X4: when the store has no link and the grandfathering callback finds
    the user [u], the link from the external id to [u] is written and the
    login is completed for [u]; the mapper is not called and no account is
    created.  If writing the link raises, the exception leaves the request
    and the login is not completed. *)
Theorem complete_sso_login_request_grandfathered
    p r request url mapper grandfather extra s o u w1 res w2
  (Hlink : get_user_by_external_id env p r (world s) = Ok o)
  (Hnolink : opt_truthy o = false)
  (Hgrand : grandfather (world s) = (Ok (Some u), w1))
  (Hu : u <> ""%string)
  (Hrec : record_user_external_id env p r u w1 = (res, w2)) :
  let s2 :=
    set_world w2
      (log (EvRecordUserExternalId p r u)
         (set_world w1
            (log EvGrandfather (log (EvGetUserByExternalId p r) s)))) in
  complete_sso_login_request env p r request url mapper grandfather extra s
  = match res with
    | Ok _ =>
        call (EvCompleteSsoLogin u url extra)
          (complete_sso_login env u request url extra) s2
    | Raise e => (Raise e, s2)
    end
  /\ calls s2
     = calls s ++ [EvGetUserByExternalId p r; EvGrandfather;
                   EvRecordUserExternalId p r u]
  /\ _username_mapping_sessions s2 = _username_mapping_sessions s.
Proof.
  intros s2. split; [|split; [|done]].
  - unfold complete_sso_login_request. unfold bind at 1.
    rewrite find_or_register_user_cases. cbv zeta.
    rewrite Hlink, Hnolink, Hgrand. cbn [opt_truthy].
    rewrite (str_truthy_ne _ Hu). cbn [default from_option id].
    rewrite Hrec. by destruct res as [[]|e].
  - subst s2. cbn [calls set_world log]. by rewrite <- !app_assoc.
Qed.

(** X5: an exception of the link lookup or of the grandfathering callback
    leaves [complete_sso_login_request] as it is, whatever its class: only
    the exceptions of the mapper are turned into [MappingException].  The
    request stops there: the mapper is not called, nothing is registered,
    the login is not completed. *)
Theorem complete_sso_login_request_early_failure
    p r request url mapper grandfather extra s e :
  (get_user_by_external_id env p r (world s) = Raise e ->
   complete_sso_login_request env p r request url mapper grandfather extra s
   = (Raise e, log (EvGetUserByExternalId p r) s))
  /\ (forall o w1,
        get_user_by_external_id env p r (world s) = Ok o ->
        opt_truthy o = false ->
        grandfather (world s) = (Raise e, w1) ->
        complete_sso_login_request env p r request url mapper grandfather
          extra s
        = (Raise e,
           set_world w1
             (log EvGrandfather (log (EvGetUserByExternalId p r) s)))).
Proof.
  split.
  - intros Hlink. unfold complete_sso_login_request. unfold bind at 1.
    rewrite find_or_register_user_cases. cbv zeta. by rewrite Hlink.
  - intros o w1 Hlink Hnolink Hgrand.
    unfold complete_sso_login_request. unfold bind at 1.
    rewrite find_or_register_user_cases. cbv zeta.
    by rewrite Hlink, Hnolink, Hgrand.
Qed.

(** The loop when attempt [i], after [i] collisions, proposes a free,
    non-empty localpart. *)
Lemma call_attribute_mapper_free mapper s i si a w2 lp :
  (i < _MAP_USERNAME_RETRIES)%nat ->
  colliding_attempts env mapper i 0 s = Some si ->
  mapper i (world si) = (Ok a, w2) ->
  localpart a = Some lp -> lp <> ""%string ->
  get_users_by_id_case_insensitive env
    (UserID_to_string lp (server_name env)) w2 = Ok [] ->
  _call_attribute_mapper env mapper s
  = (Ok a,
     log (EvGetUsersByIdCaseInsensitive
            (UserID_to_string lp (server_name env)))
       (set_world w2 (log (EvMapper i) si))).
Proof.
  intros Hi Hbefore Hmap Hlp Hne Hfree.
  rewrite (call_attribute_mapper_after env mapper i s si) by (done || lia).
  replace (_MAP_USERNAME_RETRIES - i)%nat
    with (S (_MAP_USERNAME_RETRIES - S i)) by lia.
  rewrite loop_unfold, Hmap. cbv zeta. rewrite Hlp. cbn [opt_truthy].
  rewrite (str_truthy_ne _ Hne). cbn [default from_option id].
  by rewrite Hfree.
Qed.

(** X6: the registration of a new user, from end to end.  With no link
    and no grandfathered user, when the mapper proposes at attempt [i] a
    non-empty localpart that is free and valid, the user is registered
    under it with the display name and the emails of the attributes and
    the user agent and address of the request; the link to the id that
    [register_user] returned is written next, and the login is completed
    for that id.  No picker session is stored. *)
Theorem complete_sso_login_request_registers
    p r request url mapper grandfather extra s o g w1 i si a w2 lp uid w3 w4
  (Hlink : get_user_by_external_id env p r (world s) = Ok o)
  (Hnolink : opt_truthy o = false)
  (Hgrand : grandfather (world s) = (Ok g, w1))
  (Hnouser : opt_truthy g = false)
  (Hi : (i < _MAP_USERNAME_RETRIES)%nat)
  (Hbefore :
     colliding_attempts env mapper i 0
       (set_world w1 (log EvGrandfather (log (EvGetUserByExternalId p r) s)))
     = Some si)
  (Hmap : mapper i (world si) = (Ok a, w2))
  (Hlp : localpart a = Some lp)
  (Hne : lp <> ""%string)
  (Hfree : get_users_by_id_case_insensitive env
             (UserID_to_string lp (server_name env)) w2 = Ok [])
  (Hvalid : contains_invalid_mxid_characters env lp = false)
  (Hreg : register_user env lp (display_name a) (emails a)
            [(get_user_agent request "", getClientIP request)] w2
          = (Ok uid, w3))
  (Hrec : record_user_external_id env p r uid w3 = (Ok tt, w4)) :
  let s5 :=
    set_world w4
      (log (EvRecordUserExternalId p r uid)
         (set_world w3
            (log (EvRegisterUser lp (display_name a) (emails a)
                    [(get_user_agent request "", getClientIP request)])
               (log (EvGetUsersByIdCaseInsensitive
                       (UserID_to_string lp (server_name env)))
                  (set_world w2 (log (EvMapper i) si)))))) in
  complete_sso_login_request env p r request url mapper grandfather extra s
  = call (EvCompleteSsoLogin uid url extra)
      (complete_sso_login env uid request url extra) s5
  /\ _username_mapping_sessions s5 = _username_mapping_sessions s.
Proof.
  intros s5. split.
  - unfold complete_sso_login_request. unfold bind at 1.
    rewrite find_or_register_user_cases. cbv zeta.
    rewrite Hlink, Hnolink, Hgrand, Hnouser. unfold bind at 1.
    rewrite (call_attribute_mapper_free mapper _ i si a w2 lp) by done.
    rewrite Hlp. unfold bind at 1, ret at 1.
    rewrite register_mapped_user_valid.
    + rewrite Hlp. cbn [default from_option id]. cbv zeta.
      cbn [world set_world log]. by rewrite Hreg, Hrec.
    + rewrite Hlp. cbn [localpart_is_invalid].
      by rewrite (str_truthy_ne _ Hne).
  - destruct (colliding_attempts_calls env mapper i 0 _ si Hbefore)
      as (_ & Hs & _).
    subst s5. cbn [_username_mapping_sessions set_world log]. by rewrite Hs.
Qed.

(** X7: the loop checks that a proposed localpart is free, not that it is
    valid.  When the mapper proposes a free localpart that holds an
    invalid character, the request fails with the [MappingException] of
    [_register_mapped_user]; the mapper is not asked for another
    proposal, and nothing is registered. *)
Theorem complete_sso_login_request_invalid_proposal
    p r request url mapper grandfather extra s o g w1 i si a w2 lp
  (Hlink : get_user_by_external_id env p r (world s) = Ok o)
  (Hnolink : opt_truthy o = false)
  (Hgrand : grandfather (world s) = (Ok g, w1))
  (Hnouser : opt_truthy g = false)
  (Hi : (i < _MAP_USERNAME_RETRIES)%nat)
  (Hbefore :
     colliding_attempts env mapper i 0
       (set_world w1 (log EvGrandfather (log (EvGetUserByExternalId p r) s)))
     = Some si)
  (Hmap : mapper i (world si) = (Ok a, w2))
  (Hlp : localpart a = Some lp)
  (Hne : lp <> ""%string)
  (Hfree : get_users_by_id_case_insensitive env
             (UserID_to_string lp (server_name env)) w2 = Ok [])
  (Hinvalid : contains_invalid_mxid_characters env lp = true) :
  let s3 :=
    log (EvGetUsersByIdCaseInsensitive
           (UserID_to_string lp (server_name env)))
      (set_world w2 (log (EvMapper i) si)) in
  complete_sso_login_request env p r request url mapper grandfather extra s
  = (Raise (MappingException ("localpart is invalid: " +:+ lp) None), s3)
  /\ mapper_attempts (calls s3) = mapper_attempts (calls s) ++ seq 0 (S i)
  /\ _username_mapping_sessions s3 = _username_mapping_sessions s.
Proof.
  intros s3.
  destruct (colliding_attempts_calls env mapper i 0 _ si Hbefore)
    as (Hc & Hs & _).
  split; [|split].
  - unfold complete_sso_login_request. unfold bind at 1.
    rewrite find_or_register_user_cases. cbv zeta.
    rewrite Hlink, Hnolink, Hgrand, Hnouser. unfold bind at 1.
    rewrite (call_attribute_mapper_free mapper _ i si a w2 lp) by done.
    rewrite Hlp. unfold bind at 1, ret at 1.
    rewrite register_mapped_user_invalid.
    + by rewrite Hlp.
    + rewrite Hlp. cbn [localpart_is_invalid].
      by rewrite (str_truthy_ne _ Hne).
  - subst s3. cbn [calls set_world log] in *. unfold mapper_attempts in *.
    rewrite !omap_app, Hc, !omap_app. cbn [omap].
    rewrite !app_nil_r, seq_S, <- !app_assoc. done.
  - subst s3. cbn [_username_mapping_sessions set_world log]. by rewrite Hs.
Qed.

Lemma call_appends {A} ev (f : W -> result A * W) s res s' :
  call (JsonDict := JsonDict) ev f s = (res, s') -> calls s' = calls s ++ [ev].
Proof.
  unfold call. destruct (f (world s)) as [res0 w0]. by intros [= <- <-].
Qed.

(** Whenever [find_or_register_user] returns a user id, the store linked
    the external id to it, or this very call wrote that link. *)
Lemma find_or_register_user_links
    p r request url mapper grandfather extra s u s0 :
  find_or_register_user env p r request url mapper grandfather extra s
  = (Ok u, s0) ->
  exists new,
    calls s0 = calls s ++ new
    /\ (get_user_by_external_id env p r (world s) = Ok (Some u)
        \/ EvRecordUserExternalId p r u ∈ new).
Proof.
  rewrite find_or_register_user_cases. cbv zeta.
  destruct (get_user_by_external_id env p r (world s)) as [o|e]; [|done].
  destruct (opt_truthy o) eqn:Ho.
  { intros [= <- <-]. exists [EvGetUserByExternalId p r].
    split; [done|]. left. by destruct o. }
  destruct (grandfather (world s)) as [[g|e] w1]; [|done].
  destruct (opt_truthy g) eqn:Hg.
  { destruct (record_user_external_id env p r _ w1) as [[[]|e] w2]; [|done].
    intros [= <- <-]. eexists. split.
    - cbn [calls set_world log]. rewrite <- !app_assoc. reflexivity.
    - right. set_solver. }
  set (s1 := set_world w1
               (log EvGrandfather (log (EvGetUserByExternalId p r) s))).
  unfold bind at 1.
  destruct (attribute_mapper_loop_calls mapper _MAP_USERNAME_RETRIES 0 s1)
    as (k & newloop & _ & _ & Hloop & _).
  fold (_call_attribute_mapper env mapper) in Hloop.
  destruct (_call_attribute_mapper env mapper s1) as [[a|e] sa]; [|done].
  cbn [snd] in Hloop. unfold bind at 1.
  destruct (localpart a) as [lp|] eqn:Hlp.
  - unfold ret at 1.
    destruct (localpart_is_invalid env (localpart a)) eqn:Hinv.
    { by rewrite register_mapped_user_invalid. }
    rewrite register_mapped_user_valid by done. cbv zeta.
    destruct (register_user env _ _ _ _ (world sa)) as [[uid|e] w3]; [|done].
    destruct (record_user_external_id env p r uid w3) as [[[]|e] w4]; [|done].
    intros [= <- <-]. eexists. split.
    + cbn [calls set_world log]. rewrite Hloop. subst s1.
      cbn [calls set_world log]. rewrite <- !app_assoc. reflexivity.
    + right. set_solver.
  - unfold bind at 1.
    destruct (random_string env 16 (world sa)) as [sid w3] eqn:Hrand.
    by rewrite (redirect_to_username_picker_run env p r a url extra sa sid w3).
Qed.

(** X8: a login is completed only for a user the external id is linked to.
    Whenever [complete_sso_login_request] returns, its last call is the
    completion of the login for a user [u], and either the store linked
    the external id to [u] when the request came in, or the request wrote
    that link before it completed the login. *)
Theorem complete_sso_login_request_links
    p r request url mapper grandfather extra s s'
  (Hrun : complete_sso_login_request env p r request url mapper grandfather
            extra s = (Ok tt, s')) :
  exists u new,
    calls s' = calls s ++ new ++ [EvCompleteSsoLogin u url extra]
    /\ (get_user_by_external_id env p r (world s) = Ok (Some u)
        \/ EvRecordUserExternalId p r u ∈ new).
Proof.
  unfold complete_sso_login_request in Hrun. unfold bind at 1 in Hrun.
  destruct (find_or_register_user env p r request url mapper grandfather
              extra s) as [[u|e] s0] eqn:Hfind; [|done].
  apply find_or_register_user_links in Hfind as (new & Hnew & Hlinked).
  apply call_appends in Hrun.
  exists u, new. split; [|done]. by rewrite Hrun, Hnew, <- app_assoc.
Qed.

(** ** The username picker, from redirect to submission *)

Lemma register_mapped_user_frame a p r ua ip s :
  _username_mapping_sessions (_register_mapped_user env a p r ua ip s).2
  = _username_mapping_sessions s
  /\ _identity_providers (_register_mapped_user env a p r ua ip s).2
     = _identity_providers s.
Proof.
  destruct (localpart_is_invalid env (localpart a)) eqn:Hinv.
  - by rewrite register_mapped_user_invalid.
  - rewrite register_mapped_user_valid by done. cbv zeta.
    destruct (register_user env _ _ _ _ (world s)) as [[uid|e] w1]; [|done].
    by destruct (record_user_external_id env p r uid w1) as [[[]|e] w2].
Qed.

Lemma submit_completion_run request sid session uid s :
  submit_completion env request sid session uid s
  = call (EvCompleteSsoLogin uid (client_redirect_url session)
            (extra_login_attributes session))
      (complete_sso_login env uid request (client_redirect_url session)
         (extra_login_attributes session))
      (log (EvAddCookie USERNAME_MAPPING_SESSION_COOKIE_NAME ""
              "Thu, 01 Jan 1970 00:00:00 GMT" "/")
         (set_sessions (delete sid (_username_mapping_sessions s)) s)).
Proof. reflexivity. Qed.

Lemma call_frame {A} ev (f : W -> result A * W) s :
  _username_mapping_sessions (call (JsonDict := JsonDict) ev f s).2
  = _username_mapping_sessions s.
Proof. unfold call. by destruct (f (world s)). Qed.

Lemma swept_lookup s k :
  _username_mapping_sessions (swept env s) !! k
  = match _username_mapping_sessions s !! k with
    | Some x =>
        if decide (expiry_time_ms x <= time_msec env (world s)) then None
        else Some x
    | None => None
    end.
Proof.
  unfold swept. cbn [_username_mapping_sessions set_sessions].
  apply live_sessions_lookup.
Qed.

(** X9: what is stored at the redirect is what the submission uses.  After
    [_redirect_to_username_picker] has stored a session under the id
    [sid], a submission with [sid] before the session expires, of a valid
    localpart that [register_user] accepts, registers the user with the
    display name and the emails the mapper returned, links the provider
    and remote user id of the login that was redirected, and completes the
    login with the redirect URL and the extra attributes of that login;
    the session is gone afterwards. *)
Theorem picker_round_trip
    p r a url extra s0 sid w1 w request lp uid w2 w3
  (Hrand : random_string env 16 (world s0) = (sid, w1))
  (Hlive : time_msec env w < time_msec env w1 + 15 * 60 * 1000)
  (Hne : lp <> ""%string)
  (Hvalid : contains_invalid_mxid_characters env lp = false)
  (Hreg : register_user env lp (display_name a) (emails a)
            [(get_user_agent request "", getClientIP request)] w
          = (Ok uid, w2))
  (Hrec : record_user_external_id env p r uid w2 = (Ok tt, w3)) :
  let created := (_redirect_to_username_picker env p r a url extra s0).2 in
  exists s4,
    handle_submit_username_request env request lp sid (set_world w created)
    = call (EvCompleteSsoLogin uid url extra)
        (complete_sso_login env uid request url extra) s4
    /\ world s4 = w3
    /\ calls s4
       = calls created
         ++ [EvRegisterUser lp (display_name a) (emails a)
               [(get_user_agent request "", getClientIP request)];
             EvRecordUserExternalId p r uid;
             EvAddCookie USERNAME_MAPPING_SESSION_COOKIE_NAME ""
               "Thu, 01 Jan 1970 00:00:00 GMT" "/"]
    /\ _username_mapping_sessions s4 !! sid = None.
Proof.
  intros created. subst created.
  rewrite (redirect_to_username_picker_run env p r a url extra s0 sid w1 Hrand).
  cbn [snd]. rewrite handle_submit_username_request_run, swept_lookup.
  cbn [_username_mapping_sessions world set_sessions set_world].
  rewrite lookup_insert_eq. cbn [expiry_time_ms].
  rewrite decide_False by (unfold _MAPPING_SESSION_VALIDITY_PERIOD_MS; lia).
  unfold bind at 1, submit_registration.
  rewrite register_mapped_user_valid.
  2:{ cbn [chosen_attributes localpart localpart_is_invalid].
      by rewrite (str_truthy_ne _ Hne). }
  cbn [chosen_attributes localpart display_name emails default from_option id
       session_display_name session_emails auth_provider_id remote_user_id
       world swept set_sessions set_world]. cbv zeta.
  rewrite Hreg, Hrec. rewrite submit_completion_run.
  cbn [client_redirect_url extra_login_attributes]. eexists.
  split; [reflexivity|].
  cbn [world calls _username_mapping_sessions swept set_sessions set_world
       log].
  split; [done|]. split; [by rewrite <- !app_assoc|].
  apply lookup_delete_eq.
Qed.

(** The session table after a submission: swept, and without the session
    of the submission if the registration returned. *)
Lemma handle_submit_username_request_sessions request lp sid s :
  let s' := (handle_submit_username_request env request lp sid s).2 in
  (_username_mapping_sessions s' = _username_mapping_sessions (swept env s)
   /\ forall u, (handle_submit_username_request env request lp sid s).1
                <> Ok u)
  \/ _username_mapping_sessions s'
     = delete sid (_username_mapping_sessions (swept env s)).
Proof.
  cbv zeta. rewrite handle_submit_username_request_run.
  destruct (_username_mapping_sessions (swept env s) !! sid) as [session|];
    [|by left].
  unfold bind, submit_registration.
  pose proof (register_mapped_user_frame (chosen_attributes lp session)
                (auth_provider_id session) (remote_user_id session)
                (get_user_agent request "") (getClientIP request)
                (swept env s)) as [Hs _].
  destruct (_register_mapped_user env _ _ _ _ _ (swept env s))
    as [[uid|e] sr]; cbn [fst snd] in *.
  - right. rewrite submit_completion_run, call_frame.
    cbn [_username_mapping_sessions set_sessions log]. by rewrite Hs.
  - left. by split.
Qed.

(** X10: a submission removes no session but its own, beyond the expired
    ones: whatever its outcome, every session stored under another id is
    afterwards what the sweep left of it. *)
Theorem handle_submit_username_request_frame request lp sid s k
  (Hk : k <> sid) :
  _username_mapping_sessions
    (handle_submit_username_request env request lp sid s).2 !! k
  = _username_mapping_sessions (swept env s) !! k.
Proof.
  destruct (handle_submit_username_request_sessions request lp sid s)
    as [[-> _]| ->]; [done|]. by rewrite lookup_delete_ne.
Qed.

(** X11: a picker session serves one registration.  Once a submission has
    returned, every later submission and every later availability check
    with the same session id raises "unknown session", at whatever time
    and for whatever localpart, without a call to any collaborator. *)
Theorem picker_session_single_use request lp sid s s1
  (Hrun : handle_submit_username_request env request lp sid s = (Ok tt, s1)) :
  forall w request' lp',
    handle_submit_username_request env request' lp' sid (set_world w s1)
    = (Raise (SynapseError 400 "unknown session" None),
       swept env (set_world w s1))
    /\ check_username_availability env lp' sid (set_world w s1)
       = (Raise (SynapseError 400 "unknown session" None),
          swept env (set_world w s1))
    /\ calls (swept env (set_world w s1)) = calls s1.
Proof.
  assert (_username_mapping_sessions s1 !! sid = None) as Hgone.
  { destruct (handle_submit_username_request_sessions request lp sid s)
      as [[_ Hno]|Hdel].
    - exfalso. apply (Hno tt). by rewrite Hrun.
    - rewrite Hrun in Hdel. cbn [snd] in Hdel. rewrite Hdel.
      apply lookup_delete_eq. }
  intros w request' lp'.
  rewrite handle_submit_username_request_run,
    check_username_availability_run, swept_lookup.
  cbn [_username_mapping_sessions set_world]. by rewrite Hgone.
Qed.

(** X12: sweeps are absorbed by later sweeps.  The session table after a
    sweep at one time and another at a later time is the table after the
    later sweep alone; and a session that a sweep leaves is one that was
    there, unchanged, with its expiry time still ahead. *)
Theorem expire_old_sessions_absorbed w1 w2 s
  (Hle : time_msec env w1 <= time_msec env w2) :
  _username_mapping_sessions (sweep_at env w2 (sweep_at env w1 s))
  = _username_mapping_sessions (sweep_at env w2 s)
  /\ (forall k x,
        _username_mapping_sessions (sweep_at env w1 s) !! k = Some x ->
        _username_mapping_sessions s !! k = Some x
        /\ time_msec env w1 < expiry_time_ms x).
Proof.
  unfold sweep_at. rewrite !expire_old_sessions_run. cbn [snd].
  unfold swept. cbn [_username_mapping_sessions world set_sessions set_world].
  split.
  - by apply live_sessions_twice.
  - intros k x. rewrite live_sessions_lookup.
    destruct (_username_mapping_sessions s !! k) as [y|]; [|done].
    case_decide; [done|]. intros [= ->]. split; [done|lia].
Qed.

(** ** Validation in the check and in the submission *)

(** X13: a name the check answered for is a name the submission tries to
    register.  When [check_username_availability] returns for a non-empty
    localpart, a submission of the same localpart with the same session,
    from the same state, passes the validation of [_register_mapped_user]:
    its first call is [register_user] for that localpart, with the display
    name and the emails of the session. *)
Theorem checked_localpart_reaches_registration request lp sid s b s1
  (Hcheck : check_username_availability env lp sid s = (Ok b, s1))
  (Hne : lp <> ""%string) :
  exists session rest,
    _username_mapping_sessions (swept env s) !! sid = Some session
    /\ calls (handle_submit_username_request env request lp sid s).2
       = calls s
         ++ EvRegisterUser lp (session_display_name session)
              (session_emails session)
              [(get_user_agent request "", getClientIP request)] :: rest.
Proof.
  rewrite check_username_availability_run in Hcheck.
  rewrite handle_submit_username_request_run.
  destruct (_username_mapping_sessions (swept env s) !! sid) as [session|];
    [|done].
  unfold availability_of in Hcheck.
  destruct (contains_invalid_mxid_characters env lp) eqn:Hvalid; [done|].
  clear Hcheck. exists session.
  unfold bind, submit_registration.
  rewrite register_mapped_user_valid.
  2:{ cbn [chosen_attributes localpart localpart_is_invalid].
      by rewrite (str_truthy_ne _ Hne). }
  cbn [chosen_attributes localpart display_name emails default from_option id
       world swept set_sessions]. cbv zeta.
  destruct (register_user env lp _ _ _ (world s)) as [[uid|e] w1].
  - destruct (record_user_external_id env _ _ uid w1) as [[[]|e] w2].
    + rewrite submit_completion_run. unfold call.
      cbn [world set_sessions set_world log].
      destruct (complete_sso_login env uid request _ _ w2) as [res w3].
      eexists. split; [done|]. cbn [snd calls set_sessions set_world log].
      rewrite <- !app_assoc. reflexivity.
    + eexists. split; [done|]. cbn [snd calls set_sessions set_world log].
      rewrite <- !app_assoc. reflexivity.
  - eexists. split; [done|]. cbn [snd calls set_sessions set_world log].
    reflexivity.
Qed.

(** X14: the empty localpart is the exception.  With a live session, and
    the empty string holding no invalid character, the check does not
    refuse the empty localpart: it asks the store about the user id with
    nothing between the sigil and the colon and reports the answer.  The
    submission of the empty localpart is refused, as an invalid localpart,
    before any call. *)
Theorem empty_localpart_check_and_submit request sid session s
  (Hsid : _username_mapping_sessions s !! sid = Some session)
  (Hlive : time_msec env (world s) < expiry_time_ms session)
  (Hempty : contains_invalid_mxid_characters env "" = false) :
  check_username_availability env "" sid s
  = (match get_users_by_id_case_insensitive env
             (UserID_to_string "" (server_name env)) (world s) with
     | Ok [] => Ok true
     | Ok (_ :: _) => Ok false
     | Raise e => Raise e
     end,
     log (EvGetUsersByIdCaseInsensitive
            (UserID_to_string "" (server_name env))) (swept env s))
  /\ handle_submit_username_request env request "" sid s
     = (Raise (MappingException "localpart is invalid: " None), swept env s).
Proof.
  rewrite check_username_availability_run,
    handle_submit_username_request_run, swept_lookup, Hsid.
  rewrite decide_False by lia. split.
  - unfold availability_of. rewrite Hempty. unfold bind, query, ret.
    cbn [world swept set_sessions].
    by destruct (get_users_by_id_case_insensitive env _ (world s))
      as [[|u us]|e].
  - unfold bind, submit_registration.
    by rewrite register_mapped_user_invalid.
Qed.

(** X15: a localpart with an invalid character is refused by both entry
    points before any collaborator is called, but not with the same
    exception: the check raises a [SynapseError] of status 400, the
    submission the [MappingException] of [_register_mapped_user].  The
    session stays in the table. *)
Theorem invalid_localpart_check_and_submit request lp sid session s
  (Hsid : _username_mapping_sessions s !! sid = Some session)
  (Hlive : time_msec env (world s) < expiry_time_ms session)
  (Hinvalid : contains_invalid_mxid_characters env lp = true) :
  check_username_availability env lp sid s
  = (Raise (SynapseError 400 ("localpart is invalid: " +:+ lp) None),
     swept env s)
  /\ handle_submit_username_request env request lp sid s
     = (Raise (MappingException ("localpart is invalid: " +:+ lp) None),
        swept env s)
  /\ _username_mapping_sessions (swept env s) !! sid = Some session
  /\ calls (swept env s) = calls s.
Proof.
  assert (_username_mapping_sessions (swept env s) !! sid = Some session)
    as Hfound by (by rewrite swept_lookup, Hsid, decide_False by lia).
  rewrite check_username_availability_run,
    handle_submit_username_request_run, Hfound.
  split; [|split; [|done]].
  - unfold availability_of. by rewrite Hinvalid.
  - unfold bind, submit_registration.
    rewrite register_mapped_user_invalid; [done|].
    cbn [chosen_attributes localpart localpart_is_invalid].
    by destruct (negb (str_truthy lp)).
Qed.

(** ** The registry of identity providers *)

Lemma register_identity_provider_run (p : SsoIdentityProvider W) s :
  register_identity_provider p s
  = match _identity_providers s !! idp_id p with
    | Some _ => (Raise AssertionError, s)
    | None =>
        (Ok tt,
         set_providers (<[idp_id p := p]> (_identity_providers s)) s)
    end.
Proof.
  unfold register_identity_provider, bind, gets, modify, raise.
  by destruct (_identity_providers s !! idp_id p).
Qed.

(** X16: a registration never replaces or removes a provider: whatever is
    registered, and whether the registration succeeds or fails its
    assertion, every provider of the registry stays where it was; and if
    every provider was stored under its own id, so it is afterwards.  The
    picker sessions are not touched. *)
Theorem register_identity_provider_keeps (p : SsoIdentityProvider W) s :
  let s' := (register_identity_provider (JsonDict := JsonDict) p s).2 in
  (forall k p0,
     _identity_providers s !! k = Some p0 ->
     _identity_providers s' !! k = Some p0)
  /\ (keyed_by_id (_identity_providers s) ->
      keyed_by_id (_identity_providers s'))
  /\ _username_mapping_sessions s' = _username_mapping_sessions s.
Proof.
  cbv zeta. rewrite register_identity_provider_run.
  destruct (_identity_providers s !! idp_id p) as [q|] eqn:Hp; [done|].
  cbn [snd _identity_providers _username_mapping_sessions set_providers].
  split; [|split; [|done]].
  - intros k p0 Hk. rewrite lookup_insert_ne; [done|]. congruence.
  - intros Hkeyed k p0. rewrite lookup_insert.
    case_decide as Heq; [|by apply Hkeyed]. by intros [= <-].
Qed.

Lemma register_all_ok (ps : list (SsoIdentityProvider W)) : forall s,
  NoDup (idp_id <$> ps) ->
  (forall p, p ∈ ps -> _identity_providers s !! idp_id p = None) ->
  exists s',
    register_all (JsonDict := JsonDict) ps s = (Ok tt, s')
    /\ size (_identity_providers s')
       = (size (_identity_providers s) + length ps)%nat
    /\ (forall p, p ∈ ps -> _identity_providers s' !! idp_id p = Some p)
    /\ (forall k p0,
          _identity_providers s !! k = Some p0 ->
          _identity_providers s' !! k = Some p0)
    /\ world s' = world s /\ calls s' = calls s
    /\ _username_mapping_sessions s' = _username_mapping_sessions s.
Proof.
  induction ps as [|p ps IH]; intros s Hnodup Hfresh.
  - exists s. cbn. repeat split; try done; try lia.
    intros p Hp. by apply elem_of_nil in Hp.
  - apply NoDup_cons in Hnodup as [Hnotin Hnodup].
    cbn [register_all]. unfold bind at 1.
    rewrite register_identity_provider_run.
    rewrite (Hfresh p) by apply list_elem_of_here.
    set (s1 := set_providers (<[idp_id p := p]> (_identity_providers s)) s).
    destruct (IH s1 Hnodup) as (s' & Hrun & Hsize & Hnew & Hold & Hw & Hc & Hs).
    { intros q Hq. subst s1. cbn [_identity_providers set_providers].
      rewrite lookup_insert_ne.
      - apply Hfresh. by apply list_elem_of_further.
      - intros Heq. apply Hnotin. rewrite Heq.
        by apply list_elem_of_fmap_2. }
    exists s'. split; [done|]. split; [|split; [|split]].
    + rewrite Hsize. subst s1. cbn [_identity_providers set_providers].
      rewrite map_size_insert_None by (apply Hfresh, list_elem_of_here).
      cbn [length]. lia.
    + intros q [->|Hq]%elem_of_cons; [|by apply Hnew].
      apply Hold. subst s1. cbn [_identity_providers set_providers].
      apply lookup_insert_eq.
    + intros k p0 Hk. apply Hold. subst s1.
      cbn [_identity_providers set_providers]. rewrite lookup_insert_ne; [done|].
      intros <-. rewrite (Hfresh p) in Hk by apply list_elem_of_here. done.
    + by rewrite Hw, Hc, Hs.
Qed.

Lemma register_all_clash (ps : list (SsoIdentityProvider W)) : forall s,
  (exists p, p ∈ ps /\ is_Some (_identity_providers s !! idp_id p))
  \/ ~ NoDup (idp_id <$> ps) ->
  (register_all (JsonDict := JsonDict) ps s).1 = Raise AssertionError.
Proof.
  induction ps as [|p ps IH]; intros s Hclash.
  - destruct Hclash as [(p & Hp & _)|Hdup].
    + by apply elem_of_nil in Hp.
    + exfalso. apply Hdup. constructor.
  - cbn [register_all]. unfold bind at 1.
    rewrite register_identity_provider_run.
    destruct (_identity_providers s !! idp_id p) as [q|] eqn:Hp; [done|].
    apply IH. cbn [_identity_providers set_providers].
    destruct Hclash as [(p' & [->|Hin]%elem_of_cons & [q Hq])|Hdup].
    + congruence.
    + left. exists p'. split; [done|].
      rewrite lookup_insert. case_decide; eauto.
    + destruct (decide (idp_id p ∈ idp_id <$> ps)) as [Hin|Hnotin].
      * left. apply list_elem_of_fmap in Hin as (p' & Heq & Hin).
        exists p'. split; [done|]. rewrite <- Heq, lookup_insert_eq. eauto.
      * right. intros Hnodup. apply Hdup. cbn [fmap list_fmap].
        by apply NoDup_cons.
Qed.

(** X17: starting from an empty registry, registering a list of providers
    one after the other succeeds exactly when their ids are pairwise
    distinct; otherwise the assertion of [register_identity_provider]
    fails on the way. *)
Theorem register_all_succeeds_iff (ps : list (SsoIdentityProvider W)) s
  (Hempty : _identity_providers s = ∅) :
  ((register_all (JsonDict := JsonDict) ps s).1 = Ok tt
   <-> NoDup (idp_id <$> ps))
  /\ (~ NoDup (idp_id <$> ps) ->
      (register_all (JsonDict := JsonDict) ps s).1 = Raise AssertionError).
Proof.
  split; [split|].
  - intros Hok. destruct (decide (NoDup (idp_id <$> ps))) as [|Hdup]; [done|].
    rewrite (register_all_clash ps s) in Hok by (by right). done.
  - intros Hnodup. destruct (register_all_ok ps s Hnodup) as (s' & -> & _).
    + intros p _. by rewrite Hempty, lookup_empty.
    + done.
  - intros Hdup. apply register_all_clash. by right.
Qed.

(** X18: registration and dispatch together.  After providers with
    pairwise distinct ids were registered on an empty registry, each is
    found under its id, and [handle_redirect_request] raises "not
    configured" when the list was empty, hands the request to the provider
    when there was one, and returns the address of the provider picker when
    there were more. *)
Theorem register_all_then_redirect
    (ps : list (SsoIdentityProvider W)) s request url
  (Hempty : _identity_providers s = ∅)
  (Hdistinct : NoDup (idp_id <$> ps)) :
  exists s',
    register_all ps s = (Ok tt, s')
    /\ size (_identity_providers s') = length ps
    /\ (forall p, p ∈ ps -> _identity_providers s' !! idp_id p = Some p)
    /\ handle_redirect_request env request url s'
       = match ps with
         | [] =>
             (Raise (SynapseError 400 "Homeserver not configured for SSO."
                       (Some UNRECOGNIZED)), s')
         | [p] =>
             call (EvIdpRedirect (idp_id p) url)
               (idp_handle_redirect_request p request url) s'
         | _ :: _ :: _ =>
             (Ok ("/_synapse/client/pick_idp?"
                    +:+ urlencode env [("redirectUrl"%string, url)]), s')
         end.
Proof.
  destruct (register_all_ok ps s Hdistinct)
    as (s' & Hrun & Hsize & Hnew & _).
  { intros p _. by rewrite Hempty, lookup_empty. }
  rewrite Hempty, map_size_empty in Hsize. cbn [Nat.add] in Hsize.
  exists s'. split; [done|]. split; [done|]. split; [done|].
  unfold handle_redirect_request, bind, gets. rewrite Hsize.
  destruct ps as [|p [|q ps]]; cbn [length Nat.eqb]; [done| |done].
  destruct (size_one_singleton _ Hsize) as (k & ap & Hm).
  rewrite Hm, map_to_list_singleton. cbn [fmap list_fmap snd].
  assert (ap = p) as ->; [|done].
  pose proof (Hnew p ltac:(apply list_elem_of_here)) as Hp.
  rewrite Hm in Hp. apply lookup_singleton_Some in Hp as [_ ?]. done.
Qed.

(** ** User-interactive auth *)

(** X19: [complete_sso_ui_auth_request] never fails for an unknown remote
    user and never registers one: it reads the link and hands the linked
    user id, or the empty string when there is no link, to the auth
    handler; the session table, the providers and the store are left
    alone.  Only an exception of the link lookup stops it. *)
Theorem complete_sso_ui_auth_request_user
    (ui : string -> string -> SynapseRequest -> W -> result unit * W)
    p r ui_session request s :
  (forall o,
     get_user_by_external_id env p r (world s) = Ok o ->
     let user_id := match o with Some u => u | None => ""%string end in
     complete_sso_ui_auth_request env ui p r ui_session request s
     = (let (res, w') := ui user_id ui_session request (world s) in
        (res, set_world w' (log (EvGetUserByExternalId p r) s))))
  /\ (forall e,
        get_user_by_external_id env p r (world s) = Raise e ->
        complete_sso_ui_auth_request env ui p r ui_session request s
        = (Raise e, log (EvGetUserByExternalId p r) s)).
Proof.
  unfold complete_sso_ui_auth_request, get_sso_user_by_remote_user_id.
  unfold bind, query, handoff, ret. split.
  - intros o ->. destruct o as [u|]; cbn [opt_truthy negb]; [|done].
    unfold str_truthy. destruct (String.eqb_spec u "") as [->|Hne]; done.
  - by intros e ->.
Qed.

(** ** Where picker sessions come from *)


End MoreProperties.

(** * The further properties at work in the small deployment *)

Import Fixtures.

Lemma call_attribute_mapper_returns_free_witness :
  exists j w,
    (j < 1000)%nat
    /\ mapper_bob_then_bob2 j w
       = (Ok (just (Some "bob2"%string)),
          world (_call_attribute_mapper env mapper_bob_then_bob2
                   (initial w_bob)).2)
    /\ (localpart (just (Some "bob2"%string)) = None
        \/ localpart (just (Some "bob2"%string)) = Some ""%string
        \/ get_users_by_id_case_insensitive env
             (UserID_to_string
                (default ""%string (localpart (just (Some "bob2"%string))))
                (server_name env))
             (world (_call_attribute_mapper env mapper_bob_then_bob2
                       (initial w_bob)).2)
           = Ok []).
Proof.
  apply (call_attribute_mapper_returns_free env mapper_bob_then_bob2
           (initial w_bob)).
  reflexivity.
Defined.

Lemma call_attribute_mapper_store_failure_witness :
  _call_attribute_mapper env_store_down mapper_bob (initial w_bob)
  = (Raise (OtherException "connection lost"),
     log (EvGetUsersByIdCaseInsensitive "@bob:example.org")
       (set_world w_bob (log (EvMapper 0) (initial w_bob)))).
Proof.
  apply (call_attribute_mapper_store_failure env_store_down mapper_bob
           (initial w_bob) 0 (initial w_bob) (just (Some "bob"%string)) w_bob
           (OtherException "connection lost")).
  - unfold _MAP_USERNAME_RETRIES. lia.
  - reflexivity.
  - reflexivity.
  - reflexivity.
  - reflexivity.
Defined.

(** [@alice:example.org] is found by the grandfathering callback: the link
    is written and the login completed, whatever the mapper would say. *)
Lemma complete_sso_login_request_grandfathered_witness :
  complete_sso_login_request env "oidc" "xyz" request "https://client/"
    mapper_bob grandfather_alice None (initial w_bob)
  = call (EvCompleteSsoLogin "@alice:example.org" "https://client/" None)
      (complete_sso_login env "@alice:example.org" request "https://client/"
         None)
      (set_world (add_link "oidc" "xyz" "@alice:example.org" w_bob)
         (log (EvRecordUserExternalId "oidc" "xyz" "@alice:example.org")
            looked_up)).
Proof.
  apply (proj1
    (complete_sso_login_request_grandfathered env "oidc" "xyz" request
       "https://client/" mapper_bob grandfather_alice None (initial w_bob)
       None "@alice:example.org" w_bob (Ok tt)
       (add_link "oidc" "xyz" "@alice:example.org" w_bob)
       eq_refl eq_refl eq_refl ltac:(discriminate) eq_refl)).
Defined.

Lemma complete_sso_login_request_registers_witness :
  complete_sso_login_request env "oidc" "xyz" request "https://client/"
    mapper_bob_then_bob2 no_grandfather None (initial w_bob)
  = call (EvCompleteSsoLogin "@bob2:example.org" "https://client/" None)
      (complete_sso_login env "@bob2:example.org" request "https://client/"
         None)
      (set_world
         (add_link "oidc" "xyz" "@bob2:example.org"
            (add_account "@bob2:example.org" w_bob))
         (log (EvRecordUserExternalId "oidc" "xyz" "@bob2:example.org")
            (set_world (add_account "@bob2:example.org" w_bob)
               (log (EvRegisterUser "bob2" (Some "Bob"%string)
                       ["bob@example.org"%string]
                       [("Mozilla/5.0"%string, "10.0.0.1"%string)])
                  (log (EvGetUsersByIdCaseInsensitive "@bob2:example.org")
                     (set_world w_bob (log (EvMapper 1) after_collision))))))).
Proof.
  apply (proj1
    (complete_sso_login_request_registers env "oidc" "xyz" request
       "https://client/" mapper_bob_then_bob2 no_grandfather None
       (initial w_bob) None None w_bob 1 after_collision
       (just (Some "bob2"%string)) w_bob "bob2" "@bob2:example.org"
       (add_account "@bob2:example.org" w_bob)
       (add_link "oidc" "xyz" "@bob2:example.org"
          (add_account "@bob2:example.org" w_bob))
       eq_refl eq_refl eq_refl eq_refl
       ltac:(unfold _MAP_USERNAME_RETRIES; lia)
       eq_refl eq_refl eq_refl ltac:(discriminate) eq_refl eq_refl eq_refl
       eq_refl)).
Defined.

(** [Carol!] is free but not valid: one attempt, then the failure. *)
Lemma complete_sso_login_request_invalid_proposal_witness :
  complete_sso_login_request env "oidc" "xyz" request "https://client/"
    mapper_invalid no_grandfather None (initial w_bob)
  = (Raise (MappingException "localpart is invalid: Carol!" None),
     log (EvGetUsersByIdCaseInsensitive "@Carol!:example.org")
       (set_world w_bob (log (EvMapper 0) looked_up))).
Proof.
  apply (proj1
    (complete_sso_login_request_invalid_proposal env "oidc" "xyz" request
       "https://client/" mapper_invalid no_grandfather None (initial w_bob)
       None None w_bob 0 looked_up (just (Some "Carol!"%string)) w_bob
       "Carol!"
       eq_refl eq_refl eq_refl eq_refl
       ltac:(unfold _MAP_USERNAME_RETRIES; lia)
       eq_refl eq_refl eq_refl ltac:(discriminate) eq_refl eq_refl)).
Defined.

Lemma complete_sso_login_request_links_witness :
  exists u new,
    calls (complete_sso_login_request env "oidc" "xyz" request
             "https://client/" mapper_bob_then_bob2 no_grandfather None
             (initial w_bob)).2
    = calls (initial w_bob) ++ new
        ++ [EvCompleteSsoLogin u "https://client/" None]
    /\ (get_user_by_external_id env "oidc" "xyz" (world (initial w_bob))
        = Ok (Some u)
        \/ EvRecordUserExternalId "oidc" "xyz" u ∈ new).
Proof.
  apply (complete_sso_login_request_links env "oidc" "xyz" request
           "https://client/" mapper_bob_then_bob2 no_grandfather None
           (initial w_bob)).
  reflexivity.
Defined.

(** The picker session of [("oidc", "xyz")], then the submission of
    [carol]. *)
Lemma picker_round_trip_witness :
  exists s4,
    handle_submit_username_request env request "carol" "abcdefghijklmnop"
      (set_world (set_clock 1500000 w_waiting)
         (_redirect_to_username_picker env "oidc" "xyz" (just None)
            "https://client/" None (initial w_bob)).2)
    = call (EvCompleteSsoLogin "@carol:example.org" "https://client/" None)
        (complete_sso_login env "@carol:example.org" request "https://client/"
           None) s4
    /\ world s4
       = add_link "oidc" "xyz" "@carol:example.org"
           (add_account "@carol:example.org" (set_clock 1500000 w_waiting))
    /\ calls s4
       = calls (_redirect_to_username_picker env "oidc" "xyz" (just None)
                  "https://client/" None (initial w_bob)).2
         ++ [EvRegisterUser "carol" (display_name (just None))
               (emails (just None))
               [(get_user_agent request "", getClientIP request)];
             EvRecordUserExternalId "oidc" "xyz" "@carol:example.org";
             EvAddCookie USERNAME_MAPPING_SESSION_COOKIE_NAME ""
               "Thu, 01 Jan 1970 00:00:00 GMT" "/"]
    /\ _username_mapping_sessions s4 !! "abcdefghijklmnop"%string = None.
Proof.
  apply (picker_round_trip env "oidc" "xyz" (just None) "https://client/" None
           (initial w_bob) "abcdefghijklmnop" w_waiting
           (set_clock 1500000 w_waiting) request "carol" "@carol:example.org"
           (add_account "@carol:example.org" (set_clock 1500000 w_waiting))
           (add_link "oidc" "xyz" "@carol:example.org"
              (add_account "@carol:example.org"
                 (set_clock 1500000 w_waiting)))).
  - reflexivity.
  - reflexivity.
  - discriminate.
  - reflexivity.
  - reflexivity.
  - reflexivity.
Defined.

(** Two users wait at the picker; the submission of the second leaves the
    session of the first. *)
Lemma handle_submit_username_request_frame_witness :
  _username_mapping_sessions
    (handle_submit_username_request env request "carol" "qrstuvwxyzabcdef"
       (at_time 1500000 two_waiting)).2 !! "abcdefghijklmnop"%string
  = _username_mapping_sessions (swept env (at_time 1500000 two_waiting))
      !! "abcdefghijklmnop"%string.
Proof.
  apply (handle_submit_username_request_frame env request "carol"
           "qrstuvwxyzabcdef" (at_time 1500000 two_waiting)
           "abcdefghijklmnop").
  discriminate.
Defined.

Lemma picker_session_single_use_witness :
  let s1 :=
    (handle_submit_username_request env request "carol" "abcdefghijklmnop"
       (at_time 1500000 awaiting_username)).2 in
  handle_submit_username_request env request "dave" "abcdefghijklmnop"
    (set_world (set_clock 1600000 w_waiting) s1)
  = (Raise (SynapseError 400 "unknown session" None),
     swept env (set_world (set_clock 1600000 w_waiting) s1))
  /\ check_username_availability env "dave" "abcdefghijklmnop"
       (set_world (set_clock 1600000 w_waiting) s1)
     = (Raise (SynapseError 400 "unknown session" None),
        swept env (set_world (set_clock 1600000 w_waiting) s1))
  /\ calls (swept env (set_world (set_clock 1600000 w_waiting) s1))
     = calls s1.
Proof.
  cbv zeta.
  apply (picker_session_single_use env request "carol" "abcdefghijklmnop"
           (at_time 1500000 awaiting_username)
           (handle_submit_username_request env request "carol"
              "abcdefghijklmnop" (at_time 1500000 awaiting_username)).2).
  reflexivity.
Defined.

Lemma expire_old_sessions_absorbed_witness :
  _username_mapping_sessions
    (sweep_at env (set_clock 3000000 w_waiting)
       (sweep_at env (set_clock 2000000 w_waiting) two_waiting))
  = _username_mapping_sessions
      (sweep_at env (set_clock 3000000 w_waiting) two_waiting)
  /\ (forall k x,
        _username_mapping_sessions
          (sweep_at env (set_clock 2000000 w_waiting) two_waiting) !! k
        = Some x ->
        _username_mapping_sessions two_waiting !! k = Some x
        /\ time_msec env (set_clock 2000000 w_waiting) < expiry_time_ms x).
Proof.
  apply (expire_old_sessions_absorbed env (set_clock 2000000 w_waiting)
           (set_clock 3000000 w_waiting) two_waiting).
  cbn. lia.
Defined.

Lemma checked_localpart_reaches_registration_witness :
  exists session rest,
    _username_mapping_sessions (swept env (at_time 1500000 awaiting_username))
      !! "abcdefghijklmnop"%string
    = Some session
    /\ calls (handle_submit_username_request env request "carol"
               "abcdefghijklmnop" (at_time 1500000 awaiting_username)).2
       = calls (at_time 1500000 awaiting_username)
         ++ EvRegisterUser "carol" (session_display_name session)
              (session_emails session)
              [(get_user_agent request "", getClientIP request)] :: rest.
Proof.
  apply (checked_localpart_reaches_registration env request "carol"
           "abcdefghijklmnop" (at_time 1500000 awaiting_username) true
           (check_username_availability env "carol" "abcdefghijklmnop"
              (at_time 1500000 awaiting_username)).2).
  - reflexivity.
  - discriminate.
Defined.

Lemma empty_localpart_check_and_submit_witness :
  check_username_availability env "" "abcdefghijklmnop"
    (at_time 1500000 awaiting_username)
  = (Ok true,
     log (EvGetUsersByIdCaseInsensitive "@:example.org")
       (swept env (at_time 1500000 awaiting_username)))
  /\ handle_submit_username_request env request "" "abcdefghijklmnop"
       (at_time 1500000 awaiting_username)
     = (Raise (MappingException "localpart is invalid: " None),
        swept env (at_time 1500000 awaiting_username)).
Proof.
  apply (empty_localpart_check_and_submit env request "abcdefghijklmnop"
           picker_session (at_time 1500000 awaiting_username)).
  - reflexivity.
  - reflexivity.
  - reflexivity.
Defined.

Lemma invalid_localpart_check_and_submit_witness :
  check_username_availability env "Carol!" "abcdefghijklmnop"
    (at_time 1500000 awaiting_username)
  = (Raise (SynapseError 400 "localpart is invalid: Carol!" None),
     swept env (at_time 1500000 awaiting_username))
  /\ handle_submit_username_request env request "Carol!" "abcdefghijklmnop"
       (at_time 1500000 awaiting_username)
     = (Raise (MappingException "localpart is invalid: Carol!" None),
        swept env (at_time 1500000 awaiting_username))
  /\ _username_mapping_sessions (swept env (at_time 1500000 awaiting_username))
       !! "abcdefghijklmnop"%string
     = Some picker_session
  /\ calls (swept env (at_time 1500000 awaiting_username))
     = calls (at_time 1500000 awaiting_username).
Proof.
  apply (invalid_localpart_check_and_submit env request "Carol!"
           "abcdefghijklmnop" picker_session
           (at_time 1500000 awaiting_username)).
  - reflexivity.
  - reflexivity.
  - reflexivity.
Defined.

Lemma register_all_succeeds_iff_witness :
  ((register_all (JsonDict := json) [idp "oidc"; idp "saml"; idp "oidc"]
      (initial w_bob)).1 = Ok tt
   <-> NoDup (idp_id <$> [idp "oidc"; idp "saml"; idp "oidc"]))
  /\ (~ NoDup (idp_id <$> [idp "oidc"; idp "saml"; idp "oidc"]) ->
      (register_all (JsonDict := json) [idp "oidc"; idp "saml"; idp "oidc"]
         (initial w_bob)).1 = Raise AssertionError).
Proof.
  apply (register_all_succeeds_iff [idp "oidc"; idp "saml"; idp "oidc"]
           (initial w_bob)).
  reflexivity.
Defined.

Lemma register_all_then_redirect_witness :
  exists s',
    register_all [idp "oidc"] (initial w_bob) = (Ok tt, s')
    /\ size (_identity_providers s') = length [idp "oidc"]
    /\ (forall p, p ∈ [idp "oidc"] ->
                  _identity_providers s' !! idp_id p = Some p)
    /\ handle_redirect_request env request "https://client/" s'
       = call (EvIdpRedirect (idp_id (idp "oidc")) "https://client/")
           (idp_handle_redirect_request (idp "oidc") request "https://client/")
           s'.
Proof.
  apply (register_all_then_redirect env [idp "oidc"] (initial w_bob) request
           "https://client/").
  - reflexivity.
  - cbn. apply NoDup_singleton.
Defined.
